(** * generate_secret.py: the administrator token generator

    A shallow embedding of [src/generate_secret.py] and of the library
    routines it calls (UTF-8 encoding, SHA-256, PKCS#7 padding, AES in CBC
    mode, [bytes.hex], [str.strip], [strftime]), followed by the properties
    the specification states about it.

    Conventions.  A Python [str] is a list of Unicode code points, a Python
    [bytes] object a list of [byte].  32-bit words of SHA-256 are integers
    with the wrap-around written out.  Reading the clock, drawing random
    bytes, reading standard input and printing are operations of a small
    state-and-exception monad over an explicit [world]. *)

From Stdlib Require Import String Ascii.
From Stdlib Require Import ZArith List Lia Bool Ring.
From coqutil Require Import Byte.
Import ListNotations.
Local Open Scope Z_scope.
Local Open Scope list_scope.

(** ** Python values *)

Definition codepoint := Z.
Definition str := list codepoint.
Definition bytes := list byte.

(** A string literal of the source that holds ASCII characters only. *)
Definition lit (s : string) : str :=
  map (fun a => Z.of_N (N_of_ascii a)) (list_ascii_of_string s).

(** The exceptions that the program, or a library routine it calls, raises. *)
Inductive exn : Type :=
| UnicodeEncodeError
| ValueError
| EOFError
| SystemExit (code : Z).

Inductive result (A : Type) : Type :=
| Ok (a : A)
| Raise (e : exn).
Arguments Ok {A} a.
Arguments Raise {A} e.

(** ** [str.encode('utf-8')]

    The strict encoder: one to four bytes per code point, and
    [UnicodeEncodeError] on a surrogate (U+D800..U+DFFF).  Values outside
    the code space cannot occur in a [str]; the encoder rejects them too. *)
Module Utf8.

Definition cont (z : Z) : byte := byte.of_Z (Z.lor 0x80 (Z.land z 0x3F)).

Definition encode_char (c : codepoint) : option bytes :=
  if c <? 0 then None
  else if c <? 0x80 then Some [byte.of_Z c]
  else if c <? 0x800 then
    Some [byte.of_Z (Z.lor 0xC0 (Z.shiftr c 6)); cont c]
  else if c <? 0x10000 then
    if (0xD800 <=? c) && (c <=? 0xDFFF) then None
    else Some [byte.of_Z (Z.lor 0xE0 (Z.shiftr c 12)); cont (Z.shiftr c 6); cont c]
  else if c <? 0x110000 then
    Some [byte.of_Z (Z.lor 0xF0 (Z.shiftr c 18)); cont (Z.shiftr c 12);
          cont (Z.shiftr c 6); cont c]
  else None.

Fixpoint encode_opt (s : str) : option bytes :=
  match s with
  | [] => Some []
  | c :: s' =>
      match encode_char c, encode_opt s' with
      | Some b, Some bs => Some (b ++ bs)
      | _, _ => None
      end
  end.

Definition encode (s : str) : result bytes :=
  match encode_opt s with
  | Some bs => Ok bs
  | None => Raise UnicodeEncodeError
  end.

End Utf8.

(** ** [bytes.hex()] and its inverse *)
Module Hex.

(** Lowercase digit of a value below sixteen: '0'..'9' then 'a'..'f'. *)
Definition digit (n : Z) : codepoint := if n <? 10 then 48 + n else 87 + n.

Definition of_byte (b : byte) : str :=
  [digit (Z.shiftr (byte.unsigned b) 4); digit (Z.land (byte.unsigned b) 15)].

(** [bytes.hex()]: two lowercase digits per byte, no separator. *)
Definition hex (bs : bytes) : str := flat_map of_byte bs.

(** Value of a lowercase hexadecimal digit. *)
Definition value (c : codepoint) : option Z :=
  if (48 <=? c) && (c <=? 57) then Some (c - 48)
  else if (97 <=? c) && (c <=? 102) then Some (c - 87)
  else None.

(** Decoding of a lowercase hexadecimal string of even length. *)
Fixpoint unhex (s : str) : option bytes :=
  match s with
  | [] => Some []
  | h :: l :: s' =>
      match value h, value l, unhex s' with
      | Some x, Some y, Some bs => Some (byte.of_Z (16 * x + y) :: bs)
      | _, _, _ => None
      end
  | [_] => None
  end.

End Hex.

(** ** [hashlib.sha256(data).digest()]  (FIPS 180-4) *)
Module SHA256.

Definition mask32 : Z := 0xFFFFFFFF.
Definition add32 (a b : Z) : Z := (a + b) mod 2 ^ 32.
Definition rotr (n x : Z) : Z :=
  Z.land (Z.lor (Z.shiftr x n) (Z.shiftl x (32 - n))) mask32.
Definition shr (n x : Z) : Z := Z.shiftr x n.

Definition Ch (x y z : Z) : Z :=
  Z.lxor (Z.land x y) (Z.land (Z.lxor x mask32) z).
Definition Maj (x y z : Z) : Z :=
  Z.lxor (Z.lxor (Z.land x y) (Z.land x z)) (Z.land y z).
Definition Sigma0 (x : Z) : Z := Z.lxor (Z.lxor (rotr 2 x) (rotr 13 x)) (rotr 22 x).
Definition Sigma1 (x : Z) : Z := Z.lxor (Z.lxor (rotr 6 x) (rotr 11 x)) (rotr 25 x).
Definition sigma0 (x : Z) : Z := Z.lxor (Z.lxor (rotr 7 x) (rotr 18 x)) (shr 3 x).
Definition sigma1 (x : Z) : Z := Z.lxor (Z.lxor (rotr 17 x) (rotr 19 x)) (shr 10 x).

(** The constants, as the standard defines them (4.2.2, 5.3.3): the first 32
    bits of the fractional parts of the cube roots of the first 64 primes,
    and of the square roots of the first 8. *)
Definition is_prime (n : nat) : bool :=
  forallb (fun d => negb (n mod d =? 0)%nat) (seq 2 (n - 2)).
Definition primes : list Z := map Z.of_nat (filter is_prime (seq 2 310)).
Definition cbrt (n : Z) : Z :=
  fold_left (fun x b => let y := x + 2 ^ Z.of_nat b in if y * y * y <=? n then y else x)
            (rev (seq 0 35)) 0.
Definition K : list Z :=
  Eval vm_compute in map (fun p => cbrt (p * 2 ^ 96) mod 2 ^ 32) primes.

(** The eight working variables, and the hash value between blocks. *)
Record regs : Type := Regs { ra : Z; rb : Z; rc : Z; rd : Z; re : Z; rf : Z; rg : Z; rh : Z }.

Definition H0 : regs :=
  Eval vm_compute in
    match map (fun p => Z.sqrt (p * 2 ^ 64) mod 2 ^ 32) primes with
    | a :: b :: c :: d :: e :: f :: g :: h :: _ => Regs a b c d e f g h
    | _ => Regs 0 0 0 0 0 0 0 0
    end.

(** Message padding: the bit 1, zeros up to 56 modulo 64, and the length of
    the message in bits as a 64-bit big-endian integer. *)
Definition be_bytes (n : nat) (z : Z) : bytes :=
  map (fun i => byte.of_Z (Z.shiftr z (8 * Z.of_nat i))) (rev (seq 0 n)).

Definition pad (msg : bytes) : bytes :=
  let len := Z.of_nat (length msg) in
  let zeros := Z.to_nat ((55 - len) mod 64) in
  msg ++ [byte.of_Z 0x80] ++ repeat (byte.of_Z 0) zeros ++ be_bytes 8 (8 * len).

(** Big-endian 32-bit words of a byte sequence. *)
Fixpoint words (n : nat) (bs : bytes) : list Z :=
  match n with
  | O => []
  | S n' =>
      match bs with
      | b0 :: b1 :: b2 :: b3 :: bs' =>
          (Z.shiftl (byte.unsigned b0) 24 + Z.shiftl (byte.unsigned b1) 16
           + Z.shiftl (byte.unsigned b2) 8 + byte.unsigned b3) :: words n' bs'
      | _ => []
      end
  end.

(** The message schedule: sixteen words of the block, extended to sixty-four. *)
Fixpoint extend (n : nat) (w : list Z) : list Z :=
  match n with
  | O => w
  | S n' =>
      let t := length w in
      let x := add32 (add32 (sigma1 (nth (t - 2) w 0)) (nth (t - 7) w 0))
                     (add32 (sigma0 (nth (t - 15) w 0)) (nth (t - 16) w 0)) in
      extend n' (w ++ [x])
  end.

Definition schedule (block : bytes) : list Z := extend 48 (words 16 block).

Definition round (r : regs) (kw : Z * Z) : regs :=
  let (k, w) := kw in
  let t1 := add32 (add32 (add32 (add32 (rh r) (Sigma1 (re r))) (Ch (re r) (rf r) (rg r))) k) w in
  let t2 := add32 (Sigma0 (ra r)) (Maj (ra r) (rb r) (rc r)) in
  Regs (add32 t1 t2) (ra r) (rb r) (rc r) (add32 (rd r) t1) (re r) (rf r) (rg r).

Definition compress (h : regs) (block : bytes) : regs :=
  let r := fold_left round (combine K (schedule block)) h in
  Regs (add32 (ra h) (ra r)) (add32 (rb h) (rb r)) (add32 (rc h) (rc r)) (add32 (rd h) (rd r))
       (add32 (re h) (re r)) (add32 (rf h) (rf r)) (add32 (rg h) (rg r)) (add32 (rh h) (rh r)).

Fixpoint blocks (n : nat) (h : regs) (bs : bytes) : regs :=
  match n with
  | O => h
  | S n' => blocks n' (compress h (firstn 64 bs)) (skipn 64 bs)
  end.

Definition output (h : regs) : bytes :=
  flat_map (be_bytes 4) [ra h; rb h; rc h; rd h; re h; rf h; rg h; rh h].

Definition digest (msg : bytes) : bytes :=
  let p := pad msg in
  output (blocks (length p / 64)%nat H0 p).

End SHA256.

(** ** [padding.PKCS7(block_size)]  (RFC 5652, section 6.3)

    The padder of the [cryptography] package keeps the bytes that do not yet
    fill a block: [update] hands back the complete blocks, [finalize] the
    rest followed by the padding. *)
Module PKCS7.

Definition update (block_size : nat) (buffer data : bytes) : bytes * bytes :=
  let buffer' := buffer ++ data in
  let finished_blocks := (length buffer' / (block_size / 8))%nat in
  let result := firstn (finished_blocks * (block_size / 8)) buffer' in
  (skipn (finished_blocks * (block_size / 8)) buffer', result).

Definition finalize (block_size : nat) (buffer : bytes) : bytes :=
  let pad_size := (block_size / 8 - length buffer)%nat in
  buffer ++ repeat (byte.of_Z (Z.of_nat pad_size)) pad_size.

(** [padder.update(data) + padder.finalize()] on a fresh padder. *)
Definition pad (block_size : nat) (data : bytes) : bytes :=
  let (buffer, out) := update block_size [] data in
  out ++ finalize block_size buffer.

(** Removal of the padding, as the receiving side does it: the last byte
    gives the number of padding bytes, which must all carry that value. *)
Definition unpad (block_size : nat) (data : bytes) : option bytes :=
  let len := length data in
  match rev data with
  | [] => None
  | last :: _ =>
      let n := Z.to_nat (byte.unsigned last) in
      if ((len mod (block_size / 8) =? 0) && (1 <=? n) && (n <=? block_size / 8)
          && (n <=? len) && forallb (Byte.eqb last) (skipn (len - n) data))%nat
      then Some (firstn (len - n) data)
      else None
  end.

End PKCS7.

(** ** [algorithms.AES(key)]  (FIPS 197) *)
Module AES.

Definition SBOX : list Z :=
    [0x63; 0x7c; 0x77; 0x7b; 0xf2; 0x6b; 0x6f; 0xc5; 0x30; 0x01; 0x67; 0x2b; 0xfe; 0xd7; 0xab; 0x76;
     0xca; 0x82; 0xc9; 0x7d; 0xfa; 0x59; 0x47; 0xf0; 0xad; 0xd4; 0xa2; 0xaf; 0x9c; 0xa4; 0x72; 0xc0;
     0xb7; 0xfd; 0x93; 0x26; 0x36; 0x3f; 0xf7; 0xcc; 0x34; 0xa5; 0xe5; 0xf1; 0x71; 0xd8; 0x31; 0x15;
     0x04; 0xc7; 0x23; 0xc3; 0x18; 0x96; 0x05; 0x9a; 0x07; 0x12; 0x80; 0xe2; 0xeb; 0x27; 0xb2; 0x75;
     0x09; 0x83; 0x2c; 0x1a; 0x1b; 0x6e; 0x5a; 0xa0; 0x52; 0x3b; 0xd6; 0xb3; 0x29; 0xe3; 0x2f; 0x84;
     0x53; 0xd1; 0x00; 0xed; 0x20; 0xfc; 0xb1; 0x5b; 0x6a; 0xcb; 0xbe; 0x39; 0x4a; 0x4c; 0x58; 0xcf;
     0xd0; 0xef; 0xaa; 0xfb; 0x43; 0x4d; 0x33; 0x85; 0x45; 0xf9; 0x02; 0x7f; 0x50; 0x3c; 0x9f; 0xa8;
     0x51; 0xa3; 0x40; 0x8f; 0x92; 0x9d; 0x38; 0xf5; 0xbc; 0xb6; 0xda; 0x21; 0x10; 0xff; 0xf3; 0xd2;
     0xcd; 0x0c; 0x13; 0xec; 0x5f; 0x97; 0x44; 0x17; 0xc4; 0xa7; 0x7e; 0x3d; 0x64; 0x5d; 0x19; 0x73;
     0x60; 0x81; 0x4f; 0xdc; 0x22; 0x2a; 0x90; 0x88; 0x46; 0xee; 0xb8; 0x14; 0xde; 0x5e; 0x0b; 0xdb;
     0xe0; 0x32; 0x3a; 0x0a; 0x49; 0x06; 0x24; 0x5c; 0xc2; 0xd3; 0xac; 0x62; 0x91; 0x95; 0xe4; 0x79;
     0xe7; 0xc8; 0x37; 0x6d; 0x8d; 0xd5; 0x4e; 0xa9; 0x6c; 0x56; 0xf4; 0xea; 0x65; 0x7a; 0xae; 0x08;
     0xba; 0x78; 0x25; 0x2e; 0x1c; 0xa6; 0xb4; 0xc6; 0xe8; 0xdd; 0x74; 0x1f; 0x4b; 0xbd; 0x8b; 0x8a;
     0x70; 0x3e; 0xb5; 0x66; 0x48; 0x03; 0xf6; 0x0e; 0x61; 0x35; 0x57; 0xb9; 0x86; 0xc1; 0x1d; 0x9e;
     0xe1; 0xf8; 0x98; 0x11; 0x69; 0xd9; 0x8e; 0x94; 0x9b; 0x1e; 0x87; 0xe9; 0xce; 0x55; 0x28; 0xdf;
     0x8c; 0xa1; 0x89; 0x0d; 0xbf; 0xe6; 0x42; 0x68; 0x41; 0x99; 0x2d; 0x0f; 0xb0; 0x54; 0xbb; 0x16].

Definition INV_SBOX : list Z :=
    [0x52; 0x09; 0x6a; 0xd5; 0x30; 0x36; 0xa5; 0x38; 0xbf; 0x40; 0xa3; 0x9e; 0x81; 0xf3; 0xd7; 0xfb;
     0x7c; 0xe3; 0x39; 0x82; 0x9b; 0x2f; 0xff; 0x87; 0x34; 0x8e; 0x43; 0x44; 0xc4; 0xde; 0xe9; 0xcb;
     0x54; 0x7b; 0x94; 0x32; 0xa6; 0xc2; 0x23; 0x3d; 0xee; 0x4c; 0x95; 0x0b; 0x42; 0xfa; 0xc3; 0x4e;
     0x08; 0x2e; 0xa1; 0x66; 0x28; 0xd9; 0x24; 0xb2; 0x76; 0x5b; 0xa2; 0x49; 0x6d; 0x8b; 0xd1; 0x25;
     0x72; 0xf8; 0xf6; 0x64; 0x86; 0x68; 0x98; 0x16; 0xd4; 0xa4; 0x5c; 0xcc; 0x5d; 0x65; 0xb6; 0x92;
     0x6c; 0x70; 0x48; 0x50; 0xfd; 0xed; 0xb9; 0xda; 0x5e; 0x15; 0x46; 0x57; 0xa7; 0x8d; 0x9d; 0x84;
     0x90; 0xd8; 0xab; 0x00; 0x8c; 0xbc; 0xd3; 0x0a; 0xf7; 0xe4; 0x58; 0x05; 0xb8; 0xb3; 0x45; 0x06;
     0xd0; 0x2c; 0x1e; 0x8f; 0xca; 0x3f; 0x0f; 0x02; 0xc1; 0xaf; 0xbd; 0x03; 0x01; 0x13; 0x8a; 0x6b;
     0x3a; 0x91; 0x11; 0x41; 0x4f; 0x67; 0xdc; 0xea; 0x97; 0xf2; 0xcf; 0xce; 0xf0; 0xb4; 0xe6; 0x73;
     0x96; 0xac; 0x74; 0x22; 0xe7; 0xad; 0x35; 0x85; 0xe2; 0xf9; 0x37; 0xe8; 0x1c; 0x75; 0xdf; 0x6e;
     0x47; 0xf1; 0x1a; 0x71; 0x1d; 0x29; 0xc5; 0x89; 0x6f; 0xb7; 0x62; 0x0e; 0xaa; 0x18; 0xbe; 0x1b;
     0xfc; 0x56; 0x3e; 0x4b; 0xc6; 0xd2; 0x79; 0x20; 0x9a; 0xdb; 0xc0; 0xfe; 0x78; 0xcd; 0x5a; 0xf4;
     0x1f; 0xdd; 0xa8; 0x33; 0x88; 0x07; 0xc7; 0x31; 0xb1; 0x12; 0x10; 0x59; 0x27; 0x80; 0xec; 0x5f;
     0x60; 0x51; 0x7f; 0xa9; 0x19; 0xb5; 0x4a; 0x0d; 0x2d; 0xe5; 0x7a; 0x9f; 0x93; 0xc9; 0x9c; 0xef;
     0xa0; 0xe0; 0x3b; 0x4d; 0xae; 0x2a; 0xf5; 0xb0; 0xc8; 0xeb; 0xbb; 0x3c; 0x83; 0x53; 0x99; 0x61;
     0x17; 0x2b; 0x04; 0x7e; 0xba; 0x77; 0xd6; 0x26; 0xe1; 0x69; 0x14; 0x63; 0x55; 0x21; 0x0c; 0x7d].

Definition x00 : byte := byte.of_Z 0.

Definition sub_byte (b : byte) : byte :=
  byte.of_Z (nth (Z.to_nat (byte.unsigned b)) SBOX 0).
Definition inv_sub_byte (b : byte) : byte :=
  byte.of_Z (nth (Z.to_nat (byte.unsigned b)) INV_SBOX 0).

(** Multiplication in GF(2^8) modulo x^8 + x^4 + x^3 + x + 1. *)
Definition xtime (b : byte) : byte :=
  byte.of_Z (Z.lxor (Z.shiftl (byte.unsigned b) 1)
                    (if Z.testbit (byte.unsigned b) 7 then 0x1b else 0)).

Fixpoint gmul (n : nat) (c : Z) (b : byte) : byte :=
  match n with
  | O => x00
  | S n' => byte.xor (if Z.odd c then b else x00) (gmul n' (Z.shiftr c 1) (xtime b))
  end.

Definition mul (c : Z) (b : byte) : byte := gmul 8 c b.

(** A column of the state, and a word of the key schedule. *)
Inductive word : Type := W (b0 b1 b2 b3 : byte).

(** The state, column by column; a round key has the same shape. *)
Inductive state : Type := St (c0 c1 c2 c3 : word).

Definition map_word (f : byte -> byte) (w : word) : word :=
  let (b0, b1, b2, b3) := w in W (f b0) (f b1) (f b2) (f b3).
Definition xor_word (u v : word) : word :=
  let (a0, a1, a2, a3) := u in
  let (b0, b1, b2, b3) := v in
  W (byte.xor a0 b0) (byte.xor a1 b1) (byte.xor a2 b2) (byte.xor a3 b3).
Definition sub_word : word -> word := map_word sub_byte.
Definition rot_word (w : word) : word :=
  let (b0, b1, b2, b3) := w in W b1 b2 b3 b0.

Definition add_round_key (k s : state) : state :=
  let (k0, k1, k2, k3) := k in
  let (s0, s1, s2, s3) := s in
  St (xor_word s0 k0) (xor_word s1 k1) (xor_word s2 k2) (xor_word s3 k3).

Definition sub_bytes (s : state) : state :=
  let (c0, c1, c2, c3) := s in
  St (sub_word c0) (sub_word c1) (sub_word c2) (sub_word c3).
Definition inv_sub_bytes (s : state) : state :=
  let (c0, c1, c2, c3) := s in
  St (map_word inv_sub_byte c0) (map_word inv_sub_byte c1)
     (map_word inv_sub_byte c2) (map_word inv_sub_byte c3).

(** Row [r] of the state moves [r] columns to the left. *)
Definition shift_rows (s : state) : state :=
  match s with
  | St (W a0 a1 a2 a3) (W b0 b1 b2 b3) (W c0 c1 c2 c3) (W d0 d1 d2 d3) =>
      St (W a0 b1 c2 d3) (W b0 c1 d2 a3) (W c0 d1 a2 b3) (W d0 a1 b2 c3)
  end.
Definition inv_shift_rows (s : state) : state :=
  match s with
  | St (W a0 a1 a2 a3) (W b0 b1 b2 b3) (W c0 c1 c2 c3) (W d0 d1 d2 d3) =>
      St (W a0 d1 c2 b3) (W b0 a1 d2 c3) (W c0 b1 a2 d3) (W d0 c1 b2 a3)
  end.

Definition xor4 (a b c d : byte) : byte :=
  byte.xor (byte.xor (byte.xor a b) c) d.

Definition mix_column (w : word) : word :=
  let (a, b, c, d) := w in
  W (xor4 (mul 2 a) (mul 3 b) c d)
    (xor4 a (mul 2 b) (mul 3 c) d)
    (xor4 a b (mul 2 c) (mul 3 d))
    (xor4 (mul 3 a) b c (mul 2 d)).
Definition inv_mix_column (w : word) : word :=
  let (a, b, c, d) := w in
  W (xor4 (mul 14 a) (mul 11 b) (mul 13 c) (mul 9 d))
    (xor4 (mul 9 a) (mul 14 b) (mul 11 c) (mul 13 d))
    (xor4 (mul 13 a) (mul 9 b) (mul 14 c) (mul 11 d))
    (xor4 (mul 11 a) (mul 13 b) (mul 9 c) (mul 14 d)).

Definition mix_columns (s : state) : state :=
  let (c0, c1, c2, c3) := s in
  St (mix_column c0) (mix_column c1) (mix_column c2) (mix_column c3).
Definition inv_mix_columns (s : state) : state :=
  let (c0, c1, c2, c3) := s in
  St (inv_mix_column c0) (inv_mix_column c1) (inv_mix_column c2) (inv_mix_column c3).

(** *** Key expansion, for a key of [nk] words ([nk] is 4, 6 or 8) *)

Fixpoint words_of (n : nat) (bs : bytes) : list word :=
  match n with
  | O => []
  | S n' =>
      match bs with
      | b0 :: b1 :: b2 :: b3 :: bs' => W b0 b1 b2 b3 :: words_of n' bs'
      | _ => []
      end
  end.

Fixpoint xpow (n : nat) : byte :=
  match n with
  | O => byte.of_Z 1
  | S n' => xtime (xpow n')
  end.

Definition rcon (j : nat) : word := W (xpow (j - 1)) x00 x00 x00.

Definition w0 : word := W x00 x00 x00 x00.

Fixpoint expand (fuel nk : nat) (w : list word) : list word :=
  match fuel with
  | O => w
  | S fuel' =>
      let i := length w in
      let temp := nth (i - 1) w w0 in
      let temp' :=
        if (i mod nk =? 0)%nat then xor_word (sub_word (rot_word temp)) (rcon (i / nk))
        else if ((6 <? nk) && (i mod nk =? 4))%nat then sub_word temp
        else temp in
      expand fuel' nk (w ++ [xor_word (nth (i - nk) w w0) temp'])
  end.

Fixpoint group (n : nat) (ws : list word) : list state :=
  match n with
  | O => []
  | S n' =>
      match ws with
      | c0 :: c1 :: c2 :: c3 :: ws' => St c0 c1 c2 c3 :: group n' ws'
      | _ => []
      end
  end.

(** The round keys: [nk + 7] of them, that is 11, 13 or 15. *)
Definition key_expansion (key : bytes) : list state :=
  let nk := (length key / 4)%nat in
  group (nk + 7) (expand (4 * (nk + 7) - nk) nk (words_of nk key)).

(** *** The cipher and its inverse on a state *)

Fixpoint rounds (s : state) (rks : list state) : state :=
  match rks with
  | [] => s
  | [k] => add_round_key k (shift_rows (sub_bytes s))
  | k :: rks' => rounds (add_round_key k (mix_columns (shift_rows (sub_bytes s)))) rks'
  end.

Definition cipher (rks : list state) (s : state) : state :=
  match rks with
  | [] => s
  | k :: rks' => rounds (add_round_key k s) rks'
  end.

Fixpoint inv_rounds (s : state) (rks : list state) : state :=
  match rks with
  | [] => s
  | [k] => inv_sub_bytes (inv_shift_rows (add_round_key k s))
  | k :: rks' =>
      inv_sub_bytes (inv_shift_rows (inv_mix_columns (add_round_key k (inv_rounds s rks'))))
  end.

Definition inv_cipher (rks : list state) (s : state) : state :=
  match rks with
  | [] => s
  | k :: rks' => add_round_key k (inv_rounds s rks')
  end.

(** *** Blocks of sixteen bytes *)

Definition state_of_bytes (b : bytes) : state :=
  let g i := nth i b x00 in
  St (W (g 0%nat) (g 1%nat) (g 2%nat) (g 3%nat)) (W (g 4%nat) (g 5%nat) (g 6%nat) (g 7%nat))
     (W (g 8%nat) (g 9%nat) (g 10%nat) (g 11%nat)) (W (g 12%nat) (g 13%nat) (g 14%nat) (g 15%nat)).

Definition bytes_of_state (s : state) : bytes :=
  match s with
  | St (W a0 a1 a2 a3) (W b0 b1 b2 b3) (W c0 c1 c2 c3) (W d0 d1 d2 d3) =>
      [a0; a1; a2; a3; b0; b1; b2; b3; c0; c1; c2; c3; d0; d1; d2; d3]
  end.

Definition encrypt_block (rks : list state) (b : bytes) : bytes :=
  bytes_of_state (cipher rks (state_of_bytes b)).
Definition decrypt_block (rks : list state) (b : bytes) : bytes :=
  bytes_of_state (inv_cipher rks (state_of_bytes b)).

End AES.

(** ** [Cipher(algorithms.AES(key), modes.CBC(iv))]  (NIST SP 800-38A) *)
Module CBC.

Fixpoint xor_bytes (a b : bytes) : bytes :=
  match a, b with
  | x :: a', y :: b' => byte.xor x y :: xor_bytes a' b'
  | _, _ => []
  end.

(** The encryption context: round keys, the previous ciphertext block (at
    first the IV) and the input bytes that do not yet fill a block. *)
Record ctx : Type := Ctx { round_keys : list AES.state; chain : bytes; pending : bytes }.

(** [algorithms.AES] accepts keys of 128, 192 and 256 bits, [modes.CBC] an
    IV of the block size; anything else is a [ValueError]. *)
Definition new (key iv : bytes) : result ctx :=
  if ((length key =? 16) || (length key =? 24) || (length key =? 32))%nat then
    if (length iv =? 16)%nat then Ok (Ctx (AES.key_expansion key) iv [])
    else Raise ValueError
  else Raise ValueError.

Fixpoint encrypt_blocks (n : nat) (rks : list AES.state) (prev data : bytes) : bytes * bytes :=
  match n with
  | O => (prev, [])
  | S n' =>
      let c := AES.encrypt_block rks (xor_bytes (firstn 16 data) prev) in
      let (last, out) := encrypt_blocks n' rks c (skipn 16 data) in
      (last, c ++ out)
  end.

(** [encryptor.update(data)]: every complete block is encrypted. *)
Definition update (c : ctx) (data : bytes) : ctx * bytes :=
  let buf := pending c ++ data in
  let n := (length buf / 16)%nat in
  let (last, out) := encrypt_blocks n (round_keys c) (chain c) buf in
  (Ctx (round_keys c) last (skipn (n * 16) buf), out).

(** [encryptor.finalize()]: no padding is applied, so bytes left over are an
    error. *)
Definition finalize (c : ctx) : result bytes :=
  match pending c with
  | [] => Ok []
  | _ => Raise ValueError
  end.

(** Decryption, as the receiving side does it. *)
Fixpoint decrypt_blocks (n : nat) (rks : list AES.state) (prev data : bytes) : bytes :=
  match n with
  | O => []
  | S n' =>
      let c := firstn 16 data in
      xor_bytes (AES.decrypt_block rks c) prev ++ decrypt_blocks n' rks c (skipn 16 data)
  end.

Definition decrypt (key iv data : bytes) : bytes :=
  decrypt_blocks (length data / 16) (AES.key_expansion key) iv data.

End CBC.

(** ** [datetime.now().strftime("%Y-%m-%d")]

    Only the calendar date of the clock reading is used.  [%Y] is the year
    in four digits, [%m] and [%d] the month and the day in two. *)
Record datetime : Type := Datetime { year : Z; month : Z; day : Z }.

Definition digits (n : nat) (z : Z) : str :=
  map (fun i => 48 + (z / 10 ^ Z.of_nat i) mod 10) (rev (seq 0 n)).

Definition strftime_Ymd (d : datetime) : str :=
  digits 4 (year d) ++ lit "-" ++ digits 2 (month d) ++ lit "-" ++ digits 2 (day d).

(** ** [str.strip()]

    The characters for which [str.isspace] holds, removed at both ends. *)
Definition isspace (c : codepoint) : bool :=
  ((0x09 <=? c) && (c <=? 0x0D)) || ((0x1C <=? c) && (c <=? 0x20))
  || (c =? 0x85) || (c =? 0xA0) || (c =? 0x1680)
  || ((0x2000 <=? c) && (c <=? 0x200A))
  || (c =? 0x2028) || (c =? 0x2029) || (c =? 0x202F) || (c =? 0x205F) || (c =? 0x3000).

Fixpoint lstrip (s : str) : str :=
  match s with
  | [] => []
  | c :: s' => if isspace c then lstrip s' else s
  end.

Definition rstrip (s : str) : str := rev (lstrip (rev s)).

Definition strip (s : str) : str := rstrip (lstrip s).

(** ** The world of the program and its monad *)

Inductive event : Type :=
| ReadClock
| ReadRandom (n : nat)
| ReadStdin (prompt : str)
| WriteStdout (line : str).

(** [now] is what the system clock shows, [entropy] the bytes the random
    source is going to deliver, [drawn] how many of them were taken,
    [stdin] the lines waiting on standard input, and [events] what the
    program has done to the outside so far, oldest first. *)
Record world : Type := World {
  now : datetime;
  entropy : nat -> byte;
  drawn : nat;
  stdin : list str;
  events : list event
}.

Definition M (A : Type) : Type := world -> result A * world.

Definition ret {A : Type} (a : A) : M A := fun w => (Ok a, w).

Definition bind {A B : Type} (m : M A) (f : A -> M B) : M B :=
  fun w =>
    match m w with
    | (Ok a, w') => f a w'
    | (Raise e, w') => (Raise e, w')
    end.

Notation "x <- m ;; k" := (bind m (fun x => k))
  (at level 61, m at next level, right associativity).
Notation "m ;;; k" := (bind m (fun _ => k))
  (at level 61, right associativity).

Definition raise {A : Type} (e : exn) : M A := fun w => (Raise e, w).

Definition lift {A : Type} (r : result A) : M A := fun w => (r, w).

Definition emit (e : event) (w : world) : world :=
  World (now w) (entropy w) (drawn w) (stdin w) (events w ++ [e]).

Definition datetime_now : M datetime :=
  fun w => (Ok (now w), emit ReadClock w).

(** [os.urandom(n)]: the next [n] bytes of the random source. *)
Definition os_urandom (n : nat) : M bytes :=
  fun w =>
    (Ok (map (entropy w) (seq (drawn w) n)),
     World (now w) (entropy w) (drawn w + n) (stdin w) (events w ++ [ReadRandom n])).

(** [print(line)].  Standard output is taken to accept every line, as a
    UTF-8 terminal does; on a stream that cannot encode a line the real
    [print] raises, which this model leaves out. *)
Definition print (line : str) : M unit :=
  fun w => (Ok tt, emit (WriteStdout line) w).

(** [input(prompt)]: the next line of standard input, [EOFError] at its end.
    The prompt, which [input] shows before it reads, is kept in the event. *)
Definition input (prompt : str) : M str :=
  fun w =>
    match stdin w with
    | [] => (Raise EOFError, emit (ReadStdin prompt) w)
    | l :: ls =>
        (Ok l, World (now w) (entropy w) (drawn w) ls (events w ++ [ReadStdin prompt]))
    end.

Definition exit {A : Type} (code : Z) : M A := raise (SystemExit code).

(** The lines written by [print], oldest first. *)
Definition stdout (w : world) : list str :=
  flat_map (fun e => match e with WriteStdout l => [l] | _ => [] end) (events w).

(** Exit status of the interpreter: 0 when the script runs to its end, the
    argument of [exit], and 1 after an exception nobody caught. *)
Definition exit_status {A : Type} (r : result A) : Z :=
  match r with
  | Ok _ => 0
  | Raise (SystemExit c) => c
  | Raise _ => 1
  end.

(** ** The messages of the program *)

(** "错误: 缺少依赖库 'cryptography'。" *)
Definition MSG_MISSING_LIBRARY : str :=
  [0x9519; 0x8BEF] ++ lit ": " ++ [0x7F3A; 0x5C11; 0x4F9D; 0x8D56; 0x5E93]
  ++ lit " 'cryptography'" ++ [0x3002].

(** "请运行: pip install cryptography" *)
Definition MSG_PIP_INSTALL : str :=
  [0x8BF7; 0x8FD0; 0x884C] ++ lit ": pip install cryptography".

(** "--- 管理员加密工具 ---" *)
Definition MSG_HEADER : str :=
  lit "--- " ++ [0x7BA1; 0x7406; 0x5458; 0x52A0; 0x5BC6; 0x5DE5; 0x5177] ++ lit " ---".

(** "当前日期: " *)
Definition MSG_DATE : str := [0x5F53; 0x524D; 0x65E5; 0x671F] ++ lit ": ".

(** "原始明文: " *)
Definition MSG_PLAIN : str := [0x539F; 0x59CB; 0x660E; 0x6587] ++ lit ": ".

(** "生成的加密串 (admin_secret): " *)
Definition MSG_RESULT : str :=
  [0x751F; 0x6210; 0x7684; 0x52A0; 0x5BC6; 0x4E32] ++ lit " (admin_secret): ".

(** "----------------------" *)
Definition MSG_FOOTER : str := lit "----------------------".

(** "请输入服务器的 ADMIN_SECRET: " *)
Definition PROMPT : str :=
  [0x8BF7; 0x8F93; 0x5165; 0x670D; 0x52A1; 0x5668; 0x7684] ++ lit " ADMIN_SECRET: ".

(** "错误: 未提供 ADMIN_SECRET" *)
Definition MSG_NO_SECRET : str :=
  [0x9519; 0x8BEF] ++ lit ": " ++ [0x672A; 0x63D0; 0x4F9B] ++ lit " ADMIN_SECRET".

(** ** [generate_admin_secret] *)

(** The local variables of [generate_admin_secret] once line 34 has run. *)
Record frame : Type := Frame {
  date_str : str;
  plain_text : str;
  key : bytes;
  iv : bytes;
  padded_data : bytes;
  ciphertext : bytes;
  result_hex : str
}.

(** Lines 15 to 34. *)
Definition generate_admin_secret_body (admin_secret_env : str) : M frame :=
  t <- datetime_now ;;
  let date_str := strftime_Ymd t in
  let plain_text := date_str ++ lit "_" ++ admin_secret_env ++ lit "_xy521" in
  secret_bytes <- lift (Utf8.encode admin_secret_env) ;;
  let key := SHA256.digest secret_bytes in
  iv <- os_urandom 16 ;;
  plain_bytes <- lift (Utf8.encode plain_text) ;;
  let (padder, out) := PKCS7.update 128 [] plain_bytes in
  let padded_data := out ++ PKCS7.finalize 128 padder in
  encryptor <- lift (CBC.new key iv) ;;
  let (encryptor', c1) := CBC.update encryptor padded_data in
  c2 <- lift (CBC.finalize encryptor') ;;
  let ciphertext := c1 ++ c2 in
  let result := Hex.hex (iv ++ ciphertext) in
  ret (Frame date_str plain_text key iv padded_data ciphertext result).

(** Lines 36 to 41. *)
Definition generate_admin_secret (admin_secret_env : str) : M str :=
  f <- generate_admin_secret_body admin_secret_env ;;
  print MSG_HEADER ;;;
  print (MSG_DATE ++ date_str f) ;;;
  print (MSG_PLAIN ++ plain_text f) ;;;
  print (MSG_RESULT ++ result_hex f) ;;;
  print MSG_FOOTER ;;;
  ret (result_hex f).

(** ** The script *)

(** Lines 46 to 56: the secret is the first command-line argument when there
    is one, and otherwise the line typed at the prompt, stripped. *)
Definition main (argv : list str) : M unit :=
  my_secret <- (if (1 <? length argv)%nat then ret (nth 1 argv [])
                else s <- input PROMPT ;; ret (strip s)) ;;
  match my_secret with
  | [] => print MSG_NO_SECRET
  | _ => generate_admin_secret my_secret ;;; ret tt
  end.

(** Lines 4 to 11, then the main part: without the [cryptography] package
    the script prints two lines and leaves with status 1. *)
Definition script (cryptography_installed : bool) (argv : list str) : M unit :=
  (if cryptography_installed then ret tt
   else print MSG_MISSING_LIBRARY ;;; print MSG_PIP_INSTALL ;;; exit 1) ;;;
  main argv.

(** ** Definitions used to state and to check the properties *)

(** The 256 bytes. *)
Definition all_bytes : list byte := map (fun n => byte.of_Z (Z.of_nat n)) (seq 0 256).

(** [encryptor.update(data) + encryptor.finalize()] on a fresh encryptor. *)
Definition cbc_encrypt (key iv data : bytes) : result bytes :=
  match CBC.new key iv with
  | Raise e => Raise e
  | Ok c =>
      let (c', out) := CBC.update c data in
      match CBC.finalize c' with
      | Raise e => Raise e
      | Ok fin => Ok (out ++ fin)
      end
  end.

(** The characters of a lowercase hexadecimal string. *)
Definition is_lower_hex (c : codepoint) : bool :=
  ((48 <=? c) && (c <=? 57)) || ((97 <=? c) && (c <=? 102)).

(** The sixteen bytes the next call of [os.urandom(16)] returns. *)
Definition next_iv (w : world) : bytes := map (entropy w) (seq (drawn w) 16).

(** The encoding of a string of ASCII characters. *)
Definition ascii_bytes (s : str) : bytes := map byte.of_Z s.

Definition is_ascii (c : codepoint) : bool := (0 <=? c) && (c <? 128).

(** The bytes of the plaintext for a date and an encoded secret. *)
Definition plain_bytes_of (d : datetime) (secret_bytes : bytes) : bytes :=
  ascii_bytes (strftime_Ymd d) ++ ascii_bytes (lit "_") ++ secret_bytes
  ++ ascii_bytes (lit "_xy521").

(** The values the local variables take, as functions of the secret, of
    its encoding and of the world the function starts in. *)
Definition frame_of (secret : str) (secret_bytes : bytes) (w : world) : frame :=
  let date := strftime_Ymd (now w) in
  let key := SHA256.digest secret_bytes in
  let iv := next_iv w in
  let padded := PKCS7.pad 128 (plain_bytes_of (now w) secret_bytes) in
  let ct := snd (CBC.encrypt_blocks (length padded / 16) (AES.key_expansion key) iv padded) in
  Frame date (date ++ lit "_" ++ secret ++ lit "_xy521") key iv padded ct (Hex.hex (iv ++ ct)).

(** The world after [events] more events, [n] random bytes drawn. *)
Definition advance (w : world) (n : nat) (es : list event) : world :=
  World (now w) (entropy w) (drawn w + n) (stdin w) (events w ++ es).

(** The five lines [generate_admin_secret] prints. *)
Definition report (f : frame) : list event :=
  [WriteStdout MSG_HEADER;
   WriteStdout (MSG_DATE ++ date_str f);
   WriteStdout (MSG_PLAIN ++ plain_text f);
   WriteStdout (MSG_RESULT ++ result_hex f);
   WriteStdout MSG_FOOTER].

(** Reading a date back: decimal digits, the number they denote, and the
    shape YYYY-MM-DD. *)
Definition is_digit (c : codepoint) : bool := (48 <=? c) && (c <=? 57).

Definition number_of (s : str) : Z := fold_left (fun acc c => 10 * acc + (c - 48)) s 0.

Definition is_Ymd (s : str) : bool :=
  match s with
  | [y3; y2; y1; y0; h1; m1; m0; h2; d1; d0] =>
      forallb is_digit [y3; y2; y1; y0; m1; m0; d1; d0] && (h1 =? 45) && (h2 =? 45)
  | _ => false
  end.

(** Whether a line was written to standard output, and whether a line that
    announces a token was. *)
Fixpoint str_eqb (a b : str) : bool :=
  match a, b with
  | [], [] => true
  | x :: a', y :: b' => (x =? y) && str_eqb a' b'
  | _, _ => false
  end.

Fixpoint starts_with (p l : str) : bool :=
  match p, l with
  | [], _ => true
  | x :: p', y :: l' => (x =? y) && starts_with p' l'
  | _ :: _, [] => false
  end.

Definition printed (line : str) (es : list event) : bool :=
  existsb (fun e => match e with WriteStdout l => str_eqb line l | _ => false end) es.

Definition prints_token (es : list event) : bool :=
  existsb (fun e => match e with WriteStdout l => starts_with MSG_RESULT l | _ => false end) es.

(** A world for examples: 15 January 2024, a random source that delivers
    0, 1, 2, ..., nothing typed and nothing done yet. *)
Definition example_world : world :=
  World (Datetime 2024 1 15) (fun i => byte.of_Z (Z.of_nat i)) 0 [] [].

(** The same day with another random source. *)
Definition example_world' : world :=
  World (Datetime 2024 1 15) (fun i => byte.of_Z (Z.of_nat (255 - i))) 0 [] [].

(** The secret the script goes on with: the first argument as it is, or
    the line typed at the prompt, stripped; none at the end of input. *)
Definition secret_taken (argv : list str) (w : world) : option str :=
  if (1 <? length argv)%nat then Some (nth 1 argv [])
  else match stdin w with
       | [] => None
       | l :: _ => Some (strip l)
       end.

(** * Properties *)

(** ** Bytes under exclusive or *)

Lemma land_lxor_distr_l (a b c : Z) :
  Z.land (Z.lxor a b) c = Z.lxor (Z.land a c) (Z.land b c).
Proof.
  apply Z.bits_inj'. intros n _.
  rewrite Z.lxor_spec, !Z.land_spec, Z.lxor_spec.
  destruct (Z.testbit a n), (Z.testbit b n), (Z.testbit c n); reflexivity.
Qed.

Lemma wrap_land (z : Z) : byte.wrap z = Z.land z (Z.ones 8).
Proof. unfold byte.wrap. rewrite Z.land_ones by lia. reflexivity. Qed.

Lemma unsigned_xor (a b : byte) :
  byte.unsigned (byte.xor a b) = Z.lxor (byte.unsigned a) (byte.unsigned b).
Proof.
  unfold byte.xor. rewrite byte.unsigned_of_Z, wrap_land, land_lxor_distr_l.
  rewrite <- !wrap_land, !byte.wrap_unsigned. reflexivity.
Qed.

(** Sums of bytes are compared bit by bit, in the Boolean ring. *)
Ltac xor_ring :=
  apply byte.unsigned_inj; rewrite ?unsigned_xor;
  apply Z.bits_inj'; intros ? _; rewrite ?Z.lxor_spec; ring.

Lemma xor_cancel (a k : byte) : byte.xor (byte.xor a k) k = a.
Proof. xor_ring. Qed.

Lemma byte_eqb_ok (a b : byte) : Byte.eqb a b = true -> a = b.
Proof. apply Byte.byte_dec_bl. Qed.

(** Every byte is the image of its value: a property checked on the 256
    values holds of every byte. *)
Lemma in_all_bytes (b : byte) : In b all_bytes.
Proof.
  unfold all_bytes. apply in_map_iff. exists (Z.to_nat (byte.unsigned b)).
  pose proof (byte.unsigned_range b) as Hr. split.
  - rewrite Z2Nat.id by lia. apply byte.of_Z_unsigned.
  - apply in_seq. lia.
Qed.

Lemma forall_bytes (P : byte -> bool) :
  forallb P all_bytes = true -> forall b, P b = true.
Proof. intros H b. rewrite forallb_forall in H. apply H, in_all_bytes. Qed.

Lemma forall_bytes2 (P : byte -> byte -> bool) :
  forallb (fun a => forallb (P a) all_bytes) all_bytes = true -> forall a b, P a b = true.
Proof.
  intros H a b. apply forall_bytes with (P := P a).
  apply (forall_bytes (fun a => forallb (P a) all_bytes)). exact H.
Qed.

Lemma forall_bytes_eq (f g : byte -> byte) :
  forallb (fun x => Byte.eqb (f x) (g x)) all_bytes = true -> forall b, f b = g b.
Proof.
  intros H b. apply byte_eqb_ok.
  exact (forall_bytes (fun x => Byte.eqb (f x) (g x)) H b).
Qed.

(** ** AES: every step of the cipher is undone by its inverse *)

Lemma inv_sub_byte_sub_byte (b : byte) : AES.inv_sub_byte (AES.sub_byte b) = b.
Proof.
  refine (forall_bytes_eq (fun b => AES.inv_sub_byte (AES.sub_byte b)) (fun b => b) _ b).
  vm_compute. reflexivity.
Qed.

Lemma inv_sub_bytes_sub_bytes (s : AES.state) : AES.inv_sub_bytes (AES.sub_bytes s) = s.
Proof.
  destruct s as [[? ? ? ?] [? ? ? ?] [? ? ? ?] [? ? ? ?]].
  unfold AES.sub_bytes, AES.inv_sub_bytes, AES.sub_word, AES.map_word.
  rewrite !inv_sub_byte_sub_byte. reflexivity.
Qed.

Lemma inv_shift_rows_shift_rows (s : AES.state) : AES.inv_shift_rows (AES.shift_rows s) = s.
Proof. destruct s as [[? ? ? ?] [? ? ? ?] [? ? ? ?] [? ? ? ?]]. reflexivity. Qed.

(** Doubling in GF(2^8) is additive. *)
Lemma xtime_xor (a b : byte) :
  AES.xtime (byte.xor a b) = byte.xor (AES.xtime a) (AES.xtime b).
Proof.
  apply byte_eqb_ok.
  apply (forall_bytes2
           (fun a b => Byte.eqb (AES.xtime (byte.xor a b)) (byte.xor (AES.xtime a) (AES.xtime b)))).
  vm_compute. reflexivity.
Qed.

(** The multiplications of MixColumns and of its inverse, as sums of
    repeated doublings. *)
Lemma mul_2 (b : byte) : AES.mul 2 b = AES.xtime b.
Proof. refine (forall_bytes_eq (AES.mul 2) AES.xtime _ b). vm_compute. reflexivity. Qed.

Lemma mul_3 (b : byte) : AES.mul 3 b = byte.xor b (AES.xtime b).
Proof.
  refine (forall_bytes_eq (AES.mul 3) (fun b => byte.xor b (AES.xtime b)) _ b).
  vm_compute. reflexivity.
Qed.

Lemma mul_9 (b : byte) :
  AES.mul 9 b = byte.xor b (AES.xtime (AES.xtime (AES.xtime b))).
Proof.
  refine (forall_bytes_eq (AES.mul 9)
            (fun b => byte.xor b (AES.xtime (AES.xtime (AES.xtime b)))) _ b).
  vm_compute. reflexivity.
Qed.

Lemma mul_11 (b : byte) :
  AES.mul 11 b = byte.xor (byte.xor b (AES.xtime b)) (AES.xtime (AES.xtime (AES.xtime b))).
Proof.
  refine (forall_bytes_eq (AES.mul 11)
            (fun b => byte.xor (byte.xor b (AES.xtime b))
                               (AES.xtime (AES.xtime (AES.xtime b)))) _ b).
  vm_compute. reflexivity.
Qed.

Lemma mul_13 (b : byte) :
  AES.mul 13 b =
  byte.xor (byte.xor b (AES.xtime (AES.xtime b))) (AES.xtime (AES.xtime (AES.xtime b))).
Proof.
  refine (forall_bytes_eq (AES.mul 13)
            (fun b => byte.xor (byte.xor b (AES.xtime (AES.xtime b)))
                               (AES.xtime (AES.xtime (AES.xtime b)))) _ b).
  vm_compute. reflexivity.
Qed.

Lemma mul_14 (b : byte) :
  AES.mul 14 b =
  byte.xor (byte.xor (AES.xtime b) (AES.xtime (AES.xtime b)))
           (AES.xtime (AES.xtime (AES.xtime b))).
Proof.
  refine (forall_bytes_eq (AES.mul 14)
            (fun b => byte.xor (byte.xor (AES.xtime b) (AES.xtime (AES.xtime b)))
                               (AES.xtime (AES.xtime (AES.xtime b)))) _ b).
  vm_compute. reflexivity.
Qed.

Ltac gf_normalize :=
  unfold AES.xor4; rewrite ?mul_2, ?mul_3; rewrite ?mul_9, ?mul_11, ?mul_13, ?mul_14;
  rewrite ?xtime_xor.

Lemma inv_mix_column_mix_column (w : AES.word) : AES.inv_mix_column (AES.mix_column w) = w.
Proof.
  destruct w as [a b c d]. unfold AES.mix_column, AES.inv_mix_column.
  f_equal.
  - gf_normalize; xor_ring.
  - gf_normalize; xor_ring.
  - gf_normalize; xor_ring.
  - gf_normalize; xor_ring.
Qed.

Lemma inv_mix_columns_mix_columns (s : AES.state) :
  AES.inv_mix_columns (AES.mix_columns s) = s.
Proof.
  destruct s as [c0 c1 c2 c3]. unfold AES.mix_columns, AES.inv_mix_columns.
  rewrite !inv_mix_column_mix_column. reflexivity.
Qed.

Lemma xor_word_cancel (u k : AES.word) : AES.xor_word (AES.xor_word u k) k = u.
Proof. destruct u, k. unfold AES.xor_word. rewrite !xor_cancel. reflexivity. Qed.

Lemma add_round_key_cancel (k s : AES.state) :
  AES.add_round_key k (AES.add_round_key k s) = s.
Proof.
  destruct k, s. unfold AES.add_round_key. rewrite !xor_word_cancel. reflexivity.
Qed.

Lemma inv_rounds_rounds (rks : list AES.state) :
  forall s, AES.inv_rounds (AES.rounds s rks) rks = s.
Proof.
  induction rks as [| k rks IH]; intros s.
  - reflexivity.
  - destruct rks as [| k' rks'].
    + cbn. rewrite add_round_key_cancel, inv_shift_rows_shift_rows.
      apply inv_sub_bytes_sub_bytes.
    + change (AES.rounds s (k :: k' :: rks'))
        with (AES.rounds (AES.add_round_key k (AES.mix_columns (AES.shift_rows (AES.sub_bytes s))))
                         (k' :: rks')).
      change (AES.inv_rounds ?x (k :: k' :: rks'))
        with (AES.inv_sub_bytes (AES.inv_shift_rows (AES.inv_mix_columns
               (AES.add_round_key k (AES.inv_rounds x (k' :: rks')))))).
      rewrite IH, add_round_key_cancel, inv_mix_columns_mix_columns,
        inv_shift_rows_shift_rows.
      apply inv_sub_bytes_sub_bytes.
Qed.

Lemma inv_cipher_cipher (rks : list AES.state) (s : AES.state) :
  AES.inv_cipher rks (AES.cipher rks s) = s.
Proof.
  destruct rks as [| k rks]; [reflexivity |].
  unfold AES.cipher, AES.inv_cipher. rewrite inv_rounds_rounds.
  apply add_round_key_cancel.
Qed.

Lemma state_of_bytes_of_state (s : AES.state) : AES.state_of_bytes (AES.bytes_of_state s) = s.
Proof. destruct s as [[? ? ? ?] [? ? ? ?] [? ? ? ?] [? ? ? ?]]. reflexivity. Qed.

Lemma bytes_of_state_length (s : AES.state) : length (AES.bytes_of_state s) = 16%nat.
Proof. destruct s as [[? ? ? ?] [? ? ? ?] [? ? ? ?] [? ? ? ?]]. reflexivity. Qed.

Lemma bytes_of_state_of_bytes (b : bytes) :
  length b = 16%nat -> AES.bytes_of_state (AES.state_of_bytes b) = b.
Proof.
  intros H.
  do 16 (destruct b as [| ? b]; [discriminate H |]).
  destruct b; [reflexivity | discriminate H].
Qed.

Lemma encrypt_block_length (rks : list AES.state) (b : bytes) :
  length (AES.encrypt_block rks b) = 16%nat.
Proof. apply bytes_of_state_length. Qed.

(** The block cipher is a permutation of the sixteen-byte blocks, whatever
    the round keys. *)
Lemma decrypt_block_encrypt_block (rks : list AES.state) (b : bytes) :
  length b = 16%nat -> AES.decrypt_block rks (AES.encrypt_block rks b) = b.
Proof.
  intros H. unfold AES.decrypt_block, AES.encrypt_block.
  rewrite state_of_bytes_of_state, inv_cipher_cipher.
  apply bytes_of_state_of_bytes, H.
Qed.

(** ** CBC mode: decryption undoes encryption *)

Lemma firstn_app_exact {A : Type} (a b : list A) (n : nat) :
  length a = n -> firstn n (a ++ b) = a.
Proof.
  intros <-. rewrite firstn_app, Nat.sub_diag, firstn_all, firstn_O. apply app_nil_r.
Qed.

Lemma skipn_app_exact {A : Type} (a b : list A) (n : nat) :
  length a = n -> skipn n (a ++ b) = b.
Proof. intros <-. rewrite skipn_app, Nat.sub_diag, skipn_all. reflexivity. Qed.

Lemma xor_bytes_length (a b : bytes) :
  length (CBC.xor_bytes a b) = Nat.min (length a) (length b).
Proof.
  revert b. induction a as [| x a IH]; intros [| y b]; simpl; try reflexivity.
  rewrite IH. reflexivity.
Qed.

Lemma xor_bytes_cancel (p c : bytes) :
  (length p <= length c)%nat -> CBC.xor_bytes (CBC.xor_bytes p c) c = p.
Proof.
  revert c. induction p as [| x p IH]; intros [| y c] H; simpl in *; try reflexivity; try lia.
  rewrite xor_cancel, IH by lia. reflexivity.
Qed.

Lemma encrypt_blocks_length (rks : list AES.state) (n : nat) :
  forall prev data, length (snd (CBC.encrypt_blocks n rks prev data)) = (16 * n)%nat.
Proof.
  induction n as [| n IH]; intros prev data; [reflexivity |].
  cbn [CBC.encrypt_blocks].
  specialize (IH (AES.encrypt_block rks (CBC.xor_bytes (firstn 16 data) prev)) (skipn 16 data)).
  destruct (CBC.encrypt_blocks n rks _ (skipn 16 data)) as [last out].
  cbn [snd] in *. rewrite length_app, encrypt_block_length, IH. lia.
Qed.

Lemma decrypt_blocks_encrypt_blocks (rks : list AES.state) (n : nat) :
  forall prev data,
    length prev = 16%nat -> length data = (16 * n)%nat ->
    CBC.decrypt_blocks n rks prev (snd (CBC.encrypt_blocks n rks prev data)) = data.
Proof.
  induction n as [| n IH]; intros prev data Hp Hd.
  - destruct data; [reflexivity | discriminate Hd].
  - cbn [CBC.encrypt_blocks CBC.decrypt_blocks].
    set (block := firstn 16 data).
    set (c := AES.encrypt_block rks (CBC.xor_bytes block prev)).
    assert (Hblock : length block = 16%nat)
      by (unfold block; rewrite length_firstn; lia).
    assert (Hc : length c = 16%nat) by apply encrypt_block_length.
    specialize (IH c (skipn 16 data) Hc).
    destruct (CBC.encrypt_blocks n rks c (skipn 16 data)) as [last out].
    cbn [snd] in *.
    rewrite (firstn_app_exact c out 16 Hc), (skipn_app_exact c out 16 Hc).
    unfold c at 1. rewrite decrypt_block_encrypt_block
      by (rewrite xor_bytes_length; lia).
    rewrite xor_bytes_cancel by lia.
    rewrite IH by (rewrite length_skipn; lia).
    apply firstn_skipn.
Qed.

(** With a key of 32 bytes, an IV of 16 and whole blocks of data, the
    encryptor raises nothing and returns as many bytes as it was given. *)
Lemma cbc_encrypt_ok (key iv data : bytes) (n : nat) :
  length key = 32%nat -> length iv = 16%nat -> length data = (16 * n)%nat ->
  cbc_encrypt key iv data
  = Ok (snd (CBC.encrypt_blocks n (AES.key_expansion key) iv data)).
Proof.
  intros Hk Hi Hd. unfold cbc_encrypt, CBC.new. rewrite Hk, Hi. cbn [Nat.eqb orb].
  unfold CBC.update. cbn [CBC.pending CBC.chain CBC.round_keys app].
  replace (length data / 16)%nat with n
    by (rewrite Hd, Nat.mul_comm, Nat.div_mul; lia).
  destruct (CBC.encrypt_blocks n (AES.key_expansion key) iv data) as [last out].
  unfold CBC.finalize. cbn [CBC.pending snd].
  replace (n * 16)%nat with (length data) by lia.
  rewrite skipn_all, app_nil_r. reflexivity.
Qed.

Lemma cbc_decrypt_encrypt (key iv data ct : bytes) (n : nat) :
  length key = 32%nat -> length iv = 16%nat -> length data = (16 * n)%nat ->
  cbc_encrypt key iv data = Ok ct ->
  length ct = length data /\ CBC.decrypt key iv ct = data.
Proof.
  intros Hk Hi Hd H. rewrite (cbc_encrypt_ok key iv data n Hk Hi Hd) in H.
  injection H as <-. split.
  - rewrite encrypt_blocks_length. lia.
  - unfold CBC.decrypt. rewrite encrypt_blocks_length.
    replace (16 * n / 16)%nat with n by (rewrite Nat.mul_comm, Nat.div_mul; lia).
    apply decrypt_blocks_encrypt_blocks; assumption.
Qed.

(** ** PKCS#7 padding *)

(** The number of padding bytes for a message of the given length. *)
Lemma pad_size_range (len : nat) : (1 <= 16 - len mod 16 <= 16)%nat.
Proof. pose proof (Nat.mod_upper_bound len 16). lia. Qed.

Lemma pkcs7_pad_eq (data : bytes) :
  PKCS7.pad 128 data
  = data ++ repeat (byte.of_Z (Z.of_nat (16 - length data mod 16)))
                   (16 - length data mod 16).
Proof.
  unfold PKCS7.pad, PKCS7.update, PKCS7.finalize.
  change (128 / 8)%nat with 16%nat. cbn [app].
  rewrite length_skipn.
  replace (length data - length data / 16 * 16)%nat with (length data mod 16)%nat
    by (rewrite (Nat.div_mod_eq (length data) 16) at 2; lia).
  rewrite app_assoc, firstn_skipn. reflexivity.
Qed.

Lemma pkcs7_pad_length (data : bytes) :
  length (PKCS7.pad 128 data) = (16 * (length data / 16 + 1))%nat.
Proof.
  rewrite pkcs7_pad_eq, length_app, repeat_length.
  pose proof (Nat.div_mod_eq (length data) 16).
  pose proof (Nat.mod_upper_bound (length data) 16). lia.
Qed.

Lemma unsigned_of_nat_small (n : nat) :
  (n <= 255)%nat -> Z.to_nat (byte.unsigned (byte.of_Z (Z.of_nat n))) = n.
Proof.
  intros H. rewrite byte.unsigned_of_Z. unfold byte.wrap.
  rewrite Z.mod_small by lia. apply Nat2Z.id.
Qed.

Lemma forallb_repeat {A : Type} (f : A -> bool) (x : A) (n : nat) :
  f x = true -> forallb f (repeat x n) = true.
Proof. intros H. induction n; simpl; [reflexivity |]. rewrite H, IHn. reflexivity. Qed.

Lemma byte_eqb_refl (b : byte) : Byte.eqb b b = true.
Proof. apply Byte.byte_dec_lb. reflexivity. Qed.

Lemma pkcs7_unpad_pad (data : bytes) : PKCS7.unpad 128 (PKCS7.pad 128 data) = Some data.
Proof.
  unfold PKCS7.unpad. rewrite pkcs7_pad_length. rewrite pkcs7_pad_eq.
  change (128 / 8)%nat with 16%nat.
  pose proof (pad_size_range (length data)) as Hn.
  pose proof (Nat.div_mod_eq (length data) 16) as Hdiv.
  remember (16 - length data mod 16)%nat as n eqn:En.
  destruct n as [| m]; [lia |].
  assert (Hb : Z.to_nat (byte.unsigned (byte.of_Z (Z.of_nat (S m)))) = S m)
    by (apply unsigned_of_nat_small; lia).
  set (b := byte.of_Z (Z.of_nat (S m))) in *.
  rewrite rev_app_distr, rev_repeat. cbn [repeat app]. rewrite Hb.
  replace (16 * (length data / 16 + 1) - S m)%nat with (length data) by lia.
  rewrite (skipn_app_exact data (b :: repeat b m) (length data) eq_refl).
  rewrite (firstn_app_exact data (b :: repeat b m) (length data) eq_refl).
  replace ((16 * (length data / 16 + 1)) mod 16)%nat with 0%nat
    by (rewrite Nat.mul_comm, Nat.Div0.mod_mul; reflexivity).
  change (b :: repeat b m) with (repeat b (S m)).
  rewrite (forallb_repeat (Byte.eqb b) b (S m)) by apply byte_eqb_refl.
  replace (1 <=? S m)%nat with true by (symmetry; apply Nat.leb_le; lia).
  replace (S m <=? 16)%nat with true by (symmetry; apply Nat.leb_le; lia).
  replace (S m <=? 16 * (length data / 16 + 1))%nat with true
    by (symmetry; apply Nat.leb_le; lia).
  reflexivity.
Qed.

(** ** Hexadecimal encoding *)

Lemma hex_app (a b : bytes) : Hex.hex (a ++ b) = Hex.hex a ++ Hex.hex b.
Proof. apply flat_map_app. Qed.

Lemma hex_length (bs : bytes) : length (Hex.hex bs) = (2 * length bs)%nat.
Proof. induction bs as [| b bs IH]; simpl; [reflexivity |]. rewrite IH. lia. Qed.

(** The two digits of a byte decode to that byte. *)
Lemma unhex_of_byte (b : byte) (s : str) :
  Hex.unhex (Hex.of_byte b ++ s) = option_map (cons b) (Hex.unhex s).
Proof.
  assert (H : match Hex.value (Hex.digit (Z.shiftr (byte.unsigned b) 4)),
                    Hex.value (Hex.digit (Z.land (byte.unsigned b) 15)) with
              | Some x, Some y => Byte.eqb (byte.of_Z (16 * x + y)) b
              | _, _ => false
              end = true).
  { apply (forall_bytes
             (fun b => match Hex.value (Hex.digit (Z.shiftr (byte.unsigned b) 4)),
                             Hex.value (Hex.digit (Z.land (byte.unsigned b) 15)) with
                       | Some x, Some y => Byte.eqb (byte.of_Z (16 * x + y)) b
                       | _, _ => false
                       end)).
    vm_compute. reflexivity. }
  unfold Hex.of_byte. cbn [app Hex.unhex].
  destruct (Hex.value (Hex.digit (Z.shiftr (byte.unsigned b) 4))) as [x |];
    [| discriminate H].
  destruct (Hex.value (Hex.digit (Z.land (byte.unsigned b) 15))) as [y |];
    [| discriminate H].
  apply byte_eqb_ok in H. rewrite H.
  destruct (Hex.unhex s); reflexivity.
Qed.

Lemma unhex_hex (bs : bytes) : Hex.unhex (Hex.hex bs) = Some bs.
Proof.
  induction bs as [| b bs IH]; [reflexivity |].
  change (Hex.hex (b :: bs)) with (Hex.of_byte b ++ Hex.hex bs).
  rewrite unhex_of_byte, IH. reflexivity.
Qed.

Lemma hex_inj (a b : bytes) : Hex.hex a = Hex.hex b -> a = b.
Proof.
  intros H. apply (f_equal Hex.unhex) in H. rewrite !unhex_hex in H.
  injection H as H. exact H.
Qed.

Lemma hex_lowercase (bs : bytes) : forallb is_lower_hex (Hex.hex bs) = true.
Proof.
  induction bs as [| b bs IH]; [reflexivity |].
  change (Hex.hex (b :: bs)) with (Hex.of_byte b ++ Hex.hex bs).
  rewrite forallb_app, IH, andb_true_r.
  apply (forall_bytes (fun b => forallb is_lower_hex (Hex.of_byte b))).
  vm_compute. reflexivity.
Qed.

(** The first thirty-two digits of the encoding of sixteen bytes followed
    by more are the encoding of the sixteen. *)
Lemma hex_prefix (a b : bytes) (n : nat) :
  length a = n -> firstn (2 * n) (Hex.hex (a ++ b)) = Hex.hex a.
Proof.
  intros H. rewrite hex_app. apply firstn_app_exact. rewrite hex_length, H. reflexivity.
Qed.

(** ** UTF-8 *)

Lemma encode_opt_app (a b : str) :
  Utf8.encode_opt (a ++ b)
  = match Utf8.encode_opt a, Utf8.encode_opt b with
    | Some x, Some y => Some (x ++ y)
    | _, _ => None
    end.
Proof.
  induction a as [| c a IH]; simpl.
  - destruct (Utf8.encode_opt b); reflexivity.
  - rewrite IH. destruct (Utf8.encode_char c) as [x |]; [| reflexivity].
    destruct (Utf8.encode_opt a) as [xs |]; [| reflexivity].
    destruct (Utf8.encode_opt b) as [ys |]; [| reflexivity].
    rewrite app_assoc. reflexivity.
Qed.

(** A string of ASCII characters is encoded character by character. *)
Lemma encode_opt_ascii (s : str) :
  forallb is_ascii s = true -> Utf8.encode_opt s = Some (ascii_bytes s).
Proof.
  induction s as [| c s IH]; intros H; [reflexivity |].
  simpl in H. apply andb_true_iff in H as [Hc Hs].
  unfold is_ascii in Hc. apply andb_true_iff in Hc as [H0 H1].
  cbn [Utf8.encode_opt]. rewrite (IH Hs). unfold Utf8.encode_char.
  replace (c <? 0) with false by (symmetry; apply Z.ltb_ge; lia).
  change 0x80 with 128. rewrite H1. reflexivity.
Qed.

(** ** The date *)

Lemma digits_ascii (n : nat) (z : Z) : forallb is_ascii (digits n z) = true.
Proof.
  unfold digits. induction (rev (seq 0 n)) as [| i l IH]; [reflexivity |].
  cbn [map forallb]. rewrite IH, andb_true_r. unfold is_ascii.
  pose proof (Z.mod_pos_bound (z / 10 ^ Z.of_nat i) 10 eq_refl).
  apply andb_true_iff. split; [apply Z.leb_le | apply Z.ltb_lt]; lia.
Qed.

Lemma strftime_ascii (d : datetime) : forallb is_ascii (strftime_Ymd d) = true.
Proof.
  unfold strftime_Ymd. rewrite !forallb_app, !digits_ascii. reflexivity.
Qed.

Lemma strftime_length (d : datetime) : length (strftime_Ymd d) = 10%nat.
Proof. reflexivity. Qed.

(** ** SHA-256 *)

Lemma sha256_digest_length (msg : bytes) : length (SHA256.digest msg) = 32%nat.
Proof. reflexivity. Qed.

(** ** The encryptor on whole blocks *)

Lemma cbc_new_ok (key iv : bytes) :
  length key = 32%nat -> length iv = 16%nat ->
  CBC.new key iv = Ok (CBC.Ctx (AES.key_expansion key) iv []).
Proof. intros Hk Hi. unfold CBC.new. rewrite Hk, Hi. reflexivity. Qed.

Lemma cbc_update_whole (rks : list AES.state) (iv data : bytes) (n : nat) :
  length data = (16 * n)%nat ->
  CBC.update (CBC.Ctx rks iv []) data
  = (CBC.Ctx rks (fst (CBC.encrypt_blocks n rks iv data)) [],
     snd (CBC.encrypt_blocks n rks iv data)).
Proof.
  intros Hd. unfold CBC.update. cbn [CBC.pending CBC.chain CBC.round_keys app].
  replace (length data / 16)%nat with n
    by (rewrite Hd, Nat.mul_comm, Nat.div_mul; lia).
  destruct (CBC.encrypt_blocks n rks iv data) as [last out]. cbn [fst snd].
  replace (n * 16)%nat with (length data) by lia.
  rewrite skipn_all. reflexivity.
Qed.

(** ** [generate_admin_secret] on an encodable secret *)

Lemma next_iv_length (w : world) : length (next_iv w) = 16%nat.
Proof. unfold next_iv. rewrite length_map, length_seq. reflexivity. Qed.

Lemma encode_ok (s : str) (bs : bytes) :
  Utf8.encode s = Ok bs <-> Utf8.encode_opt s = Some bs.
Proof.
  unfold Utf8.encode. destruct (Utf8.encode_opt s); split; intros H;
    try discriminate H; injection H as ->; reflexivity.
Qed.

(** The plaintext is encoded piece by piece: date, underscore, secret,
    suffix. *)
Lemma encode_plain_text (d : datetime) (s : str) (bs : bytes) :
  Utf8.encode s = Ok bs ->
  Utf8.encode (strftime_Ymd d ++ lit "_" ++ s ++ lit "_xy521") = Ok (plain_bytes_of d bs).
Proof.
  intros H. apply encode_ok in H. apply encode_ok.
  rewrite !encode_opt_app, H.
  rewrite (encode_opt_ascii _ (strftime_ascii d)).
  reflexivity.
Qed.

Lemma padded_length (d : datetime) (bs : bytes) :
  length (PKCS7.pad 128 (plain_bytes_of d bs))
  = (16 * (length (PKCS7.pad 128 (plain_bytes_of d bs)) / 16))%nat.
Proof.
  rewrite pkcs7_pad_length.
  rewrite (Nat.mul_comm 16 (_ + 1)), Nat.div_mul by lia. lia.
Qed.

Lemma body_spec (s : str) (bs : bytes) (w : world) :
  Utf8.encode s = Ok bs ->
  generate_admin_secret_body s w
  = (Ok (frame_of s bs w), advance w 16 [ReadClock; ReadRandom 16]).
Proof.
  intros H. unfold generate_admin_secret_body, bind, datetime_now, lift, os_urandom, ret.
  rewrite H. cbn [now entropy drawn stdin events emit].
  rewrite (encode_plain_text (now w) s bs H).
  fold (next_iv w).
  destruct (PKCS7.update 128 [] (plain_bytes_of (now w) bs)) as [padder out] eqn:Epad.
  assert (Hpad : out ++ PKCS7.finalize 128 padder = PKCS7.pad 128 (plain_bytes_of (now w) bs))
    by (unfold PKCS7.pad; rewrite Epad; reflexivity).
  rewrite Hpad.
  rewrite (cbc_new_ok _ _ (sha256_digest_length bs) (next_iv_length w)).
  rewrite (cbc_update_whole _ _ _ _ (padded_length (now w) bs)).
  cbn [CBC.finalize CBC.pending]. rewrite app_nil_r.
  unfold frame_of, advance. rewrite <- app_assoc. reflexivity.
Qed.

Lemma generate_spec (s : str) (bs : bytes) (w : world) :
  Utf8.encode s = Ok bs ->
  generate_admin_secret s w
  = (Ok (result_hex (frame_of s bs w)),
     advance w 16 ([ReadClock; ReadRandom 16] ++ report (frame_of s bs w))).
Proof.
  intros H. unfold generate_admin_secret, bind. rewrite (body_spec s bs w H).
  unfold print, emit, ret, advance, report. cbn [now entropy drawn stdin events].
  rewrite <- !app_assoc. reflexivity.
Qed.

(** On a secret that cannot be encoded the function raises, after it has
    read the clock and before it draws random bytes or prints. *)
Lemma generate_unencodable (s : str) (w : world) :
  Utf8.encode_opt s = None ->
  generate_admin_secret s w = (Raise UnicodeEncodeError, advance w 0 [ReadClock]).
Proof.
  intros H. unfold generate_admin_secret, generate_admin_secret_body, bind, datetime_now,
    lift, Utf8.encode.
  rewrite H. unfold advance, emit. rewrite Nat.add_0_r. reflexivity.
Qed.

Lemma number_of_digits4 (z : Z) : number_of (digits 4 z) = z mod 10000.
Proof.
  unfold number_of, digits. cbn [rev seq app map fold_left].
  change (10 ^ Z.of_nat 3) with 1000. change (10 ^ Z.of_nat 2) with 100.
  change (10 ^ Z.of_nat 1) with 10. change (10 ^ Z.of_nat 0) with 1.
  Z.div_mod_to_equations. lia.
Qed.

Lemma number_of_digits2 (z : Z) : number_of (digits 2 z) = z mod 100.
Proof.
  unfold number_of, digits. cbn [rev seq app map fold_left].
  change (10 ^ Z.of_nat 1) with 10. change (10 ^ Z.of_nat 0) with 1.
  Z.div_mod_to_equations. lia.
Qed.

Lemma digit_char (z : Z) : is_digit (48 + z mod 10) = true.
Proof.
  unfold is_digit. pose proof (Z.mod_pos_bound z 10 eq_refl).
  apply andb_true_iff. split; apply Z.leb_le; lia.
Qed.

(** The date string has the shape YYYY-MM-DD, and its three fields denote
    the year, the month and the day of the clock reading. *)
Lemma strftime_shape (d : datetime) :
  is_Ymd (strftime_Ymd d) = true
  /\ number_of (firstn 4 (strftime_Ymd d)) = year d mod 10000
  /\ number_of (firstn 2 (skipn 5 (strftime_Ymd d))) = month d mod 100
  /\ number_of (skipn 8 (strftime_Ymd d)) = day d mod 100.
Proof.
  split; [| split; [| split]].
  - unfold strftime_Ymd, digits. cbn [rev seq app map is_Ymd forallb lit
      list_ascii_of_string].
    rewrite !digit_char. reflexivity.
  - apply (number_of_digits4 (year d)).
  - apply (number_of_digits2 (month d)).
  - apply (number_of_digits2 (day d)).
Qed.

(** * The claims of the specification *)

(** C1.  Round trip.  For every secret that has a UTF-8 encoding [bs] (the
    empty one included), whatever the date and the random bytes: the call
    returns a token; the token decodes from hexadecimal; its first sixteen
    bytes are the IV that was drawn; and the rest, decrypted with
    AES-256-CBC under the key SHA-256([bs]) and that IV and stripped of its
    PKCS#7 padding, is byte for byte the UTF-8 encoding of
    "{date}_{secret}_xy521". *)
Theorem roundtrip_recovers_plaintext (s : str) (bs : bytes) (w : world)
  (Henc : Utf8.encode s = Ok bs) :
  exists token w' raw pt,
    generate_admin_secret s w = (Ok token, w')
    /\ Hex.unhex token = Some raw
    /\ firstn 16 raw = next_iv w
    /\ Utf8.encode (strftime_Ymd (now w) ++ lit "_" ++ s ++ lit "_xy521") = Ok pt
    /\ PKCS7.unpad 128 (CBC.decrypt (SHA256.digest bs) (firstn 16 raw) (skipn 16 raw))
       = Some pt.
Proof.
  exists (result_hex (frame_of s bs w)),
    (advance w 16 ([ReadClock; ReadRandom 16] ++ report (frame_of s bs w))),
    (iv (frame_of s bs w) ++ ciphertext (frame_of s bs w)),
    (plain_bytes_of (now w) bs).
  split; [apply generate_spec, Henc |].
  split; [apply unhex_hex |].
  cbn [frame_of iv ciphertext].
  rewrite (firstn_app_exact _ _ 16 (next_iv_length w)).
  rewrite (skipn_app_exact _ _ 16 (next_iv_length w)).
  split; [reflexivity |].
  split; [apply encode_plain_text, Henc |].
  pose proof (padded_length (now w) bs) as Hlen.
  destruct (cbc_decrypt_encrypt (SHA256.digest bs) (next_iv w)
              (PKCS7.pad 128 (plain_bytes_of (now w) bs)) _ _
              (sha256_digest_length bs) (next_iv_length w) Hlen
              (cbc_encrypt_ok _ _ _ _ (sha256_digest_length bs) (next_iv_length w) Hlen))
    as [_ Hdec].
  rewrite Hdec. apply pkcs7_unpad_pad.
Qed.

Lemma roundtrip_recovers_plaintext_witness :
  Utf8.encode (lit "test") = Ok (ascii_bytes (lit "test"))
  /\ exists token w' raw pt,
       generate_admin_secret (lit "test") example_world = (Ok token, w')
       /\ Hex.unhex token = Some raw
       /\ firstn 16 raw = next_iv example_world
       /\ Utf8.encode (strftime_Ymd (now example_world) ++ lit "_" ++ lit "test" ++ lit "_xy521")
          = Ok pt
       /\ PKCS7.unpad 128
            (CBC.decrypt (SHA256.digest (ascii_bytes (lit "test"))) (firstn 16 raw)
                         (skipn 16 raw))
          = Some pt.
Proof.
  split; [reflexivity |].
  apply (roundtrip_recovers_plaintext (lit "test") (ascii_bytes (lit "test")) example_world).
  reflexivity.
Defined.

(** C2.  The key.  For every secret with UTF-8 encoding [bs] the key that
    [generate_admin_secret] hands to AES is SHA-256([bs]); it is 32 bytes
    long; it is the same in every world, that is, it depends on the secret
    alone; and for the secret "test" it is the published digest of the
    ASCII bytes of "test". *)
Theorem key_is_sha256_of_secret (s : str) (bs : bytes) (w : world)
  (Henc : Utf8.encode s = Ok bs) :
  (exists f w',
     generate_admin_secret_body s w = (Ok f, w')
     /\ key f = SHA256.digest bs
     /\ length (key f) = 32%nat
     /\ cbc_encrypt (key f) (iv f) (padded_data f) = Ok (ciphertext f)
     /\ forall w2, exists f2 w2',
          generate_admin_secret_body s w2 = (Ok f2, w2') /\ key f2 = key f)
  /\ Utf8.encode (lit "test") = Ok (ascii_bytes (lit "test"))
  /\ Hex.hex (SHA256.digest (ascii_bytes (lit "test")))
     = lit "9f86d081884c7d659a2feaa0c55ad015a3bf4f1b2b0b822cd15d6c15b0f00a08".
Proof.
  split; [| split; [reflexivity | vm_compute; reflexivity]].
  exists (frame_of s bs w), (advance w 16 [ReadClock; ReadRandom 16]).
  split; [apply body_spec, Henc |].
  split; [reflexivity |].
  split; [apply sha256_digest_length |].
  split.
  - cbn [frame_of key iv padded_data ciphertext].
    apply cbc_encrypt_ok;
      [apply sha256_digest_length | apply next_iv_length | apply padded_length].
  - intros w2. exists (frame_of s bs w2), (advance w2 16 [ReadClock; ReadRandom 16]).
    split; [apply body_spec, Henc | reflexivity].
Qed.

Lemma key_is_sha256_of_secret_witness :
  Utf8.encode [0x5BC6; 0x1F511] = Ok (map byte.of_Z [0xE5; 0xAF; 0x86; 0xF0; 0x9F; 0x94; 0x91])
  /\ exists f w',
       generate_admin_secret_body [0x5BC6; 0x1F511] example_world = (Ok f, w')
       /\ key f = SHA256.digest (map byte.of_Z [0xE5; 0xAF; 0x86; 0xF0; 0x9F; 0x94; 0x91])
       /\ length (key f) = 32%nat.
Proof.
  split; [reflexivity |].
  destruct (key_is_sha256_of_secret [0x5BC6; 0x1F511]
              (map byte.of_Z [0xE5; 0xAF; 0x86; 0xF0; 0x9F; 0x94; 0x91]) example_world eq_refl)
    as [(f & w' & Hrun & Hkey & Hlen & _) _].
  exists f, w'. split; [exact Hrun | split; [exact Hkey | exact Hlen]].
Defined.

(** C3.  The plaintext.  For every secret with UTF-8 encoding [bs]: the
    date string is the clock reading formatted as YYYY-MM-DD; the plaintext
    string is that date, an underscore, the secret as it is, an underscore
    and "xy521"; what is padded and encrypted is its UTF-8 encoding, in
    which the bytes of the secret stand unchanged between the date with its
    underscore and the suffix. *)
Theorem plaintext_is_date_secret_suffix (s : str) (bs : bytes) (w : world)
  (Henc : Utf8.encode s = Ok bs) :
  exists f w',
    generate_admin_secret_body s w = (Ok f, w')
    /\ date_str f = strftime_Ymd (now w)
    /\ is_Ymd (date_str f) = true
    /\ number_of (firstn 4 (date_str f)) = year (now w) mod 10000
    /\ number_of (firstn 2 (skipn 5 (date_str f))) = month (now w) mod 100
    /\ number_of (skipn 8 (date_str f)) = day (now w) mod 100
    /\ plain_text f = date_str f ++ lit "_" ++ s ++ lit "_xy521"
    /\ Utf8.encode (plain_text f)
       = Ok (ascii_bytes (date_str f) ++ ascii_bytes (lit "_") ++ bs
             ++ ascii_bytes (lit "_xy521"))
    /\ padded_data f
       = PKCS7.pad 128 (ascii_bytes (date_str f) ++ ascii_bytes (lit "_") ++ bs
                        ++ ascii_bytes (lit "_xy521"))
    /\ cbc_encrypt (key f) (iv f) (padded_data f) = Ok (ciphertext f).
Proof.
  exists (frame_of s bs w), (advance w 16 [ReadClock; ReadRandom 16]).
  destruct (strftime_shape (now w)) as (Hshape & Hy & Hm & Hd).
  split; [apply body_spec, Henc |].
  cbn [frame_of date_str plain_text padded_data key iv ciphertext].
  repeat (split; [first [reflexivity | assumption] |]).
  split; [apply (encode_plain_text (now w) s bs Henc) |].
  split; [reflexivity |].
  apply cbc_encrypt_ok;
    [apply sha256_digest_length | apply next_iv_length | apply padded_length].
Qed.

Lemma plaintext_is_date_secret_suffix_witness :
  Utf8.encode (lit "a_b") = Ok (ascii_bytes (lit "a_b"))
  /\ exists f w',
       generate_admin_secret_body (lit "a_b") example_world = (Ok f, w')
       /\ plain_text f = lit "2024-01-15_a_b_xy521"
       /\ Utf8.encode (plain_text f) = Ok (ascii_bytes (lit "2024-01-15_a_b_xy521")).
Proof.
  split; [reflexivity |].
  destruct (plaintext_is_date_secret_suffix (lit "a_b") (ascii_bytes (lit "a_b"))
              example_world eq_refl)
    as (f & w' & Hrun & Hdate & _ & _ & _ & _ & Htext & Hbytes & _).
  exists f, w'. split; [exact Hrun |].
  rewrite Htext, Hdate in *. split; [reflexivity | exact Hbytes].
Defined.

(** C4.  Padding.  Whatever the secret, what the function pads is the
    UTF-8 encoding [pt] of its plaintext, and what it encrypts is the padded
    sequence: [pt] followed by [n] bytes of value [n], where [n] is 16 minus
    the length of [pt] modulo 16, between 1 and 16 and never none, so that
    whole blocks of 16 are filled; a plaintext that already fills whole
    blocks gets sixteen bytes 0x10.  The padder does the same on every byte
    sequence. *)
Theorem padding_step_is_pkcs7 (s : str) (bs : bytes) (w : world)
  (Henc : Utf8.encode s = Ok bs) :
  (exists f w' pt n,
     generate_admin_secret_body s w = (Ok f, w')
     /\ Utf8.encode (plain_text f) = Ok pt
     /\ n = (16 - length pt mod 16)%nat
     /\ (1 <= n <= 16)%nat
     /\ padded_data f = pt ++ repeat (byte.of_Z (Z.of_nat n)) n
     /\ (length (padded_data f) mod 16 = 0)%nat
     /\ (length pt < length (padded_data f))%nat
     /\ ((length pt mod 16 = 0)%nat -> padded_data f = pt ++ repeat (byte.of_Z 0x10) 16)
     /\ cbc_encrypt (key f) (iv f) (padded_data f) = Ok (ciphertext f))
  /\ (forall data : bytes,
        PKCS7.pad 128 data
        = data ++ repeat (byte.of_Z (Z.of_nat (16 - length data mod 16)))
                         (16 - length data mod 16)
        /\ (1 <= 16 - length data mod 16 <= 16)%nat
        /\ (length (PKCS7.pad 128 data) mod 16 = 0)%nat
        /\ ((length data mod 16 = 0)%nat ->
            PKCS7.pad 128 data = data ++ repeat (byte.of_Z 0x10) 16)).
Proof.
  assert (Hall : forall data : bytes,
             PKCS7.pad 128 data
             = data ++ repeat (byte.of_Z (Z.of_nat (16 - length data mod 16)))
                              (16 - length data mod 16)
             /\ (1 <= 16 - length data mod 16 <= 16)%nat
             /\ (length (PKCS7.pad 128 data) mod 16 = 0)%nat
             /\ ((length data mod 16 = 0)%nat ->
                 PKCS7.pad 128 data = data ++ repeat (byte.of_Z 0x10) 16)).
  { intros data. split; [apply pkcs7_pad_eq |].
    split; [apply pad_size_range |].
    split; [rewrite pkcs7_pad_length, Nat.mul_comm; apply Nat.Div0.mod_mul |].
    intros H. rewrite pkcs7_pad_eq, H. reflexivity. }
  split; [| exact Hall].
  exists (frame_of s bs w), (advance w 16 [ReadClock; ReadRandom 16]),
    (plain_bytes_of (now w) bs), (16 - length (plain_bytes_of (now w) bs) mod 16)%nat.
  destruct (Hall (plain_bytes_of (now w) bs)) as (Heq & Hn & Hmod & Hfull).
  split; [apply body_spec, Henc |].
  cbn [frame_of plain_text padded_data key iv ciphertext].
  split; [apply encode_plain_text, Henc |].
  split; [reflexivity |].
  split; [exact Hn |].
  split; [exact Heq |].
  split; [exact Hmod |].
  split; [rewrite Heq, length_app, repeat_length; lia |].
  split; [exact Hfull |].
  apply cbc_encrypt_ok;
    [apply sha256_digest_length | apply next_iv_length | apply padded_length].
Qed.

Lemma padding_step_is_pkcs7_witness :
  Utf8.encode (lit "fifteen-letters") = Ok (ascii_bytes (lit "fifteen-letters"))
  /\ exists f w',
       generate_admin_secret_body (lit "fifteen-letters") example_world = (Ok f, w')
       /\ padded_data f
          = ascii_bytes (lit "2024-01-15_fifteen-letters_xy521") ++ repeat (byte.of_Z 0x10) 16.
Proof.
  split; [reflexivity |].
  destruct (padding_step_is_pkcs7 (lit "fifteen-letters") (ascii_bytes (lit "fifteen-letters"))
              example_world eq_refl)
    as [(f & w' & pt & n & Hrun & Hpt & _ & _ & _ & _ & _ & Hfull & _) _].
  exists f, w'. split; [exact Hrun |].
  assert (Hf : f = frame_of (lit "fifteen-letters") (ascii_bytes (lit "fifteen-letters"))
                     example_world).
  { rewrite (body_spec (lit "fifteen-letters") (ascii_bytes (lit "fifteen-letters"))
               example_world eq_refl) in Hrun.
    injection Hrun as <- _. reflexivity. }
  assert (Hp : pt = ascii_bytes (lit "2024-01-15_fifteen-letters_xy521")).
  { rewrite Hf in Hpt. apply encode_ok in Hpt. vm_compute in Hpt.
    injection Hpt as <-. reflexivity. }
  rewrite Hp in Hfull. apply Hfull. reflexivity.
Defined.

(** C5.  The token.  For every encodable secret the value returned is the
    hexadecimal encoding of the IV followed by the ciphertext: lowercase
    digits only, two per byte, nothing between them.  The IV is the sixteen
    bytes drawn from the random source, the one the encryption used, and
    the first 32 characters of the token decode to it. *)
Theorem token_is_hex_of_iv_and_ciphertext (s : str) (bs : bytes) (w : world)
  (Henc : Utf8.encode s = Ok bs) :
  exists f w0 token w',
    generate_admin_secret_body s w = (Ok f, w0)
    /\ generate_admin_secret s w = (Ok token, w')
    /\ token = Hex.hex (iv f ++ ciphertext f)
    /\ iv f = next_iv w
    /\ length (iv f) = 16%nat
    /\ cbc_encrypt (key f) (iv f) (padded_data f) = Ok (ciphertext f)
    /\ forallb is_lower_hex token = true
    /\ length token = (2 * length (iv f ++ ciphertext f))%nat
    /\ Hex.unhex token = Some (iv f ++ ciphertext f)
    /\ Hex.unhex (firstn 32 token) = Some (iv f).
Proof.
  exists (frame_of s bs w), (advance w 16 [ReadClock; ReadRandom 16]),
    (result_hex (frame_of s bs w)),
    (advance w 16 ([ReadClock; ReadRandom 16] ++ report (frame_of s bs w))).
  split; [apply body_spec, Henc |].
  split; [apply generate_spec, Henc |].
  cbn [frame_of iv ciphertext result_hex key padded_data].
  split; [reflexivity |].
  split; [reflexivity |].
  split; [apply next_iv_length |].
  split; [apply cbc_encrypt_ok;
          [apply sha256_digest_length | apply next_iv_length | apply padded_length] |].
  split; [apply hex_lowercase |].
  split; [apply hex_length |].
  split; [apply unhex_hex |].
  rewrite (hex_prefix _ _ 16 (next_iv_length w)). apply unhex_hex.
Qed.

Lemma token_is_hex_of_iv_and_ciphertext_witness :
  Utf8.encode (lit "test") = Ok (ascii_bytes (lit "test"))
  /\ exists token w',
       generate_admin_secret (lit "test") example_world = (Ok token, w')
       /\ forallb is_lower_hex token = true
       /\ Hex.unhex (firstn 32 token) = Some (next_iv example_world).
Proof.
  split; [reflexivity |].
  destruct (token_is_hex_of_iv_and_ciphertext (lit "test") (ascii_bytes (lit "test"))
              example_world eq_refl)
    as (f & w0 & token & w' & _ & Hrun & _ & Hiv & _ & _ & Hlow & _ & _ & Hpre).
  exists token, w'. rewrite <- Hiv. split; [exact Hrun | split; [exact Hlow | exact Hpre]].
Defined.



(** C7, the claim as stated, fails: distinct tokens are not guaranteed.
    With a random source that delivers the same byte over and over, two
    calls one after the other, for the same secret on the same day, return
    the same token. *)
Lemma repeating_source_repeats_token :
  exists t w1 w2,
    generate_admin_secret (lit "test")
      (World (Datetime 2024 1 15) (fun _ => AES.x00) 0 [] []) = (Ok t, w1)
    /\ generate_admin_secret (lit "test") w1 = (Ok t, w2).
Proof.
  eexists. eexists. eexists. split; [vm_compute; reflexivity |].
  vm_compute. reflexivity.
Qed.

(** C7, amended.  For every encodable secret, two runs that draw different
    sixteen bytes return tokens that differ already in their first 32
    characters, whatever the dates.  Each run draws the next sixteen bytes
    of the random source, and the tokens are distinct only as far as the
    source does not repeat: runs that draw the same sixteen bytes return
    tokens with the same first 32 characters, and on the same date the same
    token. *)
Theorem tokens_differ_as_ivs_differ (s : str) (bs : bytes) (w1 w2 : world)
  (Henc : Utf8.encode s = Ok bs) :
  exists t1 w1' t2 w2',
    generate_admin_secret s w1 = (Ok t1, w1')
    /\ generate_admin_secret s w2 = (Ok t2, w2')
    /\ (next_iv w1 <> next_iv w2 -> firstn 32 t1 <> firstn 32 t2 /\ t1 <> t2)
    /\ (next_iv w1 = next_iv w2 -> firstn 32 t1 = firstn 32 t2)
    /\ (next_iv w1 = next_iv w2 -> strftime_Ymd (now w1) = strftime_Ymd (now w2) ->
        t1 = t2)
    /\ next_iv w1' = map (entropy w1) (seq (drawn w1 + 16) 16).
Proof.
  exists (result_hex (frame_of s bs w1)),
    (advance w1 16 ([ReadClock; ReadRandom 16] ++ report (frame_of s bs w1))),
    (result_hex (frame_of s bs w2)),
    (advance w2 16 ([ReadClock; ReadRandom 16] ++ report (frame_of s bs w2))).
  split; [apply generate_spec, Henc |].
  split; [apply generate_spec, Henc |].
  cbn [frame_of result_hex].
  split.
  { intros Hiv.
    assert (Hpre : firstn 32
                     (Hex.hex (next_iv w1 ++ snd (CBC.encrypt_blocks
                        (length (PKCS7.pad 128 (plain_bytes_of (now w1) bs)) / 16)
                        (AES.key_expansion (SHA256.digest bs)) (next_iv w1)
                        (PKCS7.pad 128 (plain_bytes_of (now w1) bs)))))
                   <> firstn 32
                     (Hex.hex (next_iv w2 ++ snd (CBC.encrypt_blocks
                        (length (PKCS7.pad 128 (plain_bytes_of (now w2) bs)) / 16)
                        (AES.key_expansion (SHA256.digest bs)) (next_iv w2)
                        (PKCS7.pad 128 (plain_bytes_of (now w2) bs)))))).
    { rewrite (hex_prefix _ _ 16 (next_iv_length w1)), (hex_prefix _ _ 16 (next_iv_length w2)).
      intros H. apply Hiv, hex_inj, H. }
    split; [exact Hpre |]. intros H. apply Hpre. rewrite H. reflexivity. }
  split.
  { intros Hiv.
    rewrite (hex_prefix _ _ 16 (next_iv_length w1)), (hex_prefix _ _ 16 (next_iv_length w2)).
    rewrite Hiv. reflexivity. }
  split; [| reflexivity].
  intros Hiv Hdate. unfold plain_bytes_of. rewrite Hiv, Hdate. reflexivity.
Qed.

Lemma tokens_differ_as_ivs_differ_witness :
  Utf8.encode (lit "test") = Ok (ascii_bytes (lit "test"))
  /\ next_iv example_world <> next_iv example_world'
  /\ exists t1 w1' t2 w2',
       generate_admin_secret (lit "test") example_world = (Ok t1, w1')
       /\ generate_admin_secret (lit "test") example_world' = (Ok t2, w2')
       /\ firstn 32 t1 <> firstn 32 t2
       /\ t1 <> t2.
Proof.
  assert (Hne : next_iv example_world <> next_iv example_world')
    by (vm_compute; discriminate).
  split; [reflexivity |]. split; [exact Hne |].
  destruct (tokens_differ_as_ivs_differ (lit "test") (ascii_bytes (lit "test"))
              example_world example_world' eq_refl)
    as (t1 & w1' & t2 & w2' & H1 & H2 & Hd & _).
  destruct (Hd Hne) as [Hp Ht].
  exists t1, w1', t2, w2'. repeat (split; [assumption |]). assumption.
Defined.

(** ** The script *)

Lemma lstrip_whitespace (a : str) : forallb isspace a = true -> lstrip a = [].
Proof.
  induction a as [| c a IH]; intros H; [reflexivity |].
  simpl in H. apply andb_true_iff in H as [Hc Ha].
  cbn [lstrip]. rewrite Hc. apply IH, Ha.
Qed.

Lemma strip_whitespace (a : str) : forallb isspace a = true -> strip a = [].
Proof. intros H. unfold strip. rewrite (lstrip_whitespace a H). reflexivity. Qed.

Lemma isspace_range (c : codepoint) : isspace c = true -> 9 <= c <= 0x3000.
Proof.
  unfold isspace. rewrite !orb_true_iff, !andb_true_iff, !Z.leb_le, !Z.eqb_eq. lia.
Qed.

(** Whitespace has a UTF-8 encoding: no whitespace character is a
    surrogate. *)
Lemma whitespace_encodable (a : str) :
  forallb isspace a = true -> exists bs, Utf8.encode a = Ok bs.
Proof.
  intros H.
  assert (Hopt : exists bs, Utf8.encode_opt a = Some bs).
  { induction a as [| c a IH]; [exists []; reflexivity |].
    simpl in H. apply andb_true_iff in H as [Hc Ha].
    destruct (IH Ha) as [bs Hbs]. apply isspace_range in Hc.
    cbn [Utf8.encode_opt]. rewrite Hbs. unfold Utf8.encode_char.
    replace (c <? 0) with false by (symmetry; apply Z.ltb_ge; lia).
    destruct (c <? 128); [eexists; reflexivity |].
    destruct (c <? 2048); [eexists; reflexivity |].
    replace (c <? 65536) with true by (symmetry; apply Z.ltb_lt; lia).
    replace (55296 <=? c) with false by (symmetry; apply Z.leb_gt; lia).
    eexists; reflexivity. }
  destruct Hopt as [bs Hbs]. exists bs. apply encode_ok, Hbs.
Qed.

(** With the library installed and an argument on the command line, the
    script is [generate_admin_secret] on that argument, unless it is
    empty. *)
Lemma script_with_argument (prog a : str) (rest : list str) (w : world) :
  script true (prog :: a :: rest) w
  = match a with
    | [] => print MSG_NO_SECRET w
    | _ => (generate_admin_secret a ;;; ret tt) w
    end.
Proof. destruct a; reflexivity. Qed.

Lemma script_with_line (prog line : str) (w : world) (ls : list str) :
  stdin w = line :: ls ->
  script true [prog] w
  = match strip line with
    | [] => print MSG_NO_SECRET
    | s => generate_admin_secret s ;;; ret tt
    end (World (now w) (entropy w) (drawn w) ls (events w ++ [ReadStdin PROMPT])).
Proof.
  intros H. unfold script, main, bind, ret, input. cbn [length Nat.ltb Nat.leb].
  rewrite H. destruct (strip line); reflexivity.
Qed.

(** C10.  Only the typed line is stripped.  A command-line argument that is
    not empty and holds whitespace only is empty once stripped, yet the
    script passes it as it is to [generate_admin_secret], which returns a
    token built from it: the events of the run are those of that call and
    no error line.  The same string typed at the prompt is stripped and
    rejected. *)
Theorem whitespace_argument_is_used_verbatim (prog a : str) (rest : list str) (w : world)
  (Hne : a <> []) (Hws : forallb isspace a = true) :
  strip a = []
  /\ (exists bs token w',
        Utf8.encode a = Ok bs
        /\ generate_admin_secret a w = (Ok token, w')
        /\ script true (prog :: a :: rest) w = (Ok tt, w')
        /\ token = result_hex (frame_of a bs w)
        /\ events w'
           = events w ++ [ReadClock; ReadRandom 16] ++ report (frame_of a bs w))
  /\ script true [prog] (World (now w) (entropy w) (drawn w) (a :: stdin w) (events w))
     = (Ok tt, World (now w) (entropy w) (drawn w) (stdin w)
                 (events w ++ [ReadStdin PROMPT; WriteStdout MSG_NO_SECRET])).
Proof.
  split; [apply strip_whitespace, Hws |].
  split.
  - destruct (whitespace_encodable a Hws) as [bs Hbs].
    exists bs, (result_hex (frame_of a bs w)),
      (advance w 16 ([ReadClock; ReadRandom 16] ++ report (frame_of a bs w))).
    split; [exact Hbs |].
    split; [apply generate_spec, Hbs |].
    split; [| split; reflexivity].
    rewrite script_with_argument. destruct a as [| c a]; [contradiction |].
    unfold bind. rewrite (generate_spec _ _ w Hbs). reflexivity.
  - rewrite (script_with_line prog a
               (World (now w) (entropy w) (drawn w) (a :: stdin w) (events w))
               (stdin w) eq_refl).
    rewrite (strip_whitespace a Hws).
    unfold print, emit. cbn [now entropy drawn stdin events].
    rewrite <- app_assoc. reflexivity.
Qed.

Lemma whitespace_argument_is_used_verbatim_witness :
  lit " " <> [] /\ forallb isspace (lit " ") = true
  /\ strip (lit " ") = []
  /\ exists bs token w',
       Utf8.encode (lit " ") = Ok bs
       /\ generate_admin_secret (lit " ") example_world = (Ok token, w')
       /\ script true [lit "generate_secret.py"; lit " "] example_world = (Ok tt, w').
Proof.
  assert (Hne : lit " " <> []) by discriminate.
  split; [exact Hne |]. split; [reflexivity |].
  destruct (whitespace_argument_is_used_verbatim (lit "generate_secret.py") (lit " ") []
              example_world Hne eq_refl)
    as (Hstrip & (bs & token & w' & Hbs & Hgen & Hrun & _) & _).
  split; [exact Hstrip |].
  exists bs, token, w'. split; [exact Hbs | split; [exact Hgen | exact Hrun]].
Defined.

(** C8, the claim as stated, fails.  The argument " " is empty once
    trimmed, yet the script does not reject it: it prints a token for it
    and no error line. *)
Lemma whitespace_argument_is_not_rejected :
  strip (lit " ") = []
  /\ exists w',
       script true [lit "generate_secret.py"; lit " "] example_world = (Ok tt, w')
       /\ prints_token (events w') = true
       /\ printed MSG_NO_SECRET (events w') = false.
Proof.
  split; [reflexivity |].
  eexists. split; [vm_compute; reflexivity |].
  split; vm_compute; reflexivity.
Qed.

(** C8, amended.  When the secret the script goes on with (the first
    argument as it is, or else the typed line, trimmed) is the empty
    string, [generate_admin_secret] is not called: what the script does is
    to report the error "错误: 未提供 ADMIN_SECRET", after the prompt when
    the secret was typed; it prints no token and reads neither the clock
    nor the random source. *)
Theorem empty_secret_is_rejected (argv : list str) (w : world)
  (H : secret_taken argv w = Some []) :
  (events (snd (script true argv w)) = events w ++ [WriteStdout MSG_NO_SECRET]
   \/ events (snd (script true argv w))
      = events w ++ [ReadStdin PROMPT; WriteStdout MSG_NO_SECRET])
  /\ printed MSG_NO_SECRET (skipn (length (events w)) (events (snd (script true argv w))))
     = true
  /\ prints_token (skipn (length (events w)) (events (snd (script true argv w)))) = false
  /\ ~ In ReadClock (skipn (length (events w)) (events (snd (script true argv w))))
  /\ drawn (snd (script true argv w)) = drawn w.
Proof.
  unfold secret_taken in H. unfold script, main, bind, ret, input.
  destruct (1 <? length argv)%nat.
  - injection H as H. rewrite H. unfold print, emit. cbn [snd events drawn].
    rewrite (skipn_app_exact _ _ _ eq_refl).
    split; [left; reflexivity |].
    split; [vm_compute; reflexivity |]. split; [reflexivity |].
    split; [| reflexivity]. intros [E | []]. discriminate E.
  - destruct (stdin w) as [| l ls]; [discriminate H |]. injection H as H. rewrite H.
    unfold print, emit. cbn [snd events drawn].
    rewrite <- app_assoc, (skipn_app_exact _ _ _ eq_refl).
    split; [right; reflexivity |].
    split; [vm_compute; reflexivity |]. split; [reflexivity |].
    split; [| reflexivity]. intros [E | [E | []]]; discriminate E.
Qed.

Lemma empty_secret_is_rejected_witness :
  secret_taken [lit "generate_secret.py"]
    (World (Datetime 2024 1 15) (entropy example_world) 0 [lit "  "] []) = Some []
  /\ events (snd (script true [lit "generate_secret.py"]
                    (World (Datetime 2024 1 15) (entropy example_world) 0 [lit "  "] [])))
     = [ReadStdin PROMPT; WriteStdout MSG_NO_SECRET].
Proof.
  split; [reflexivity |].
  destruct (empty_secret_is_rejected [lit "generate_secret.py"]
              (World (Datetime 2024 1 15) (entropy example_world) 0 [lit "  "] []) eq_refl)
    as ([Hev | Hev] & _); [| exact Hev].
  vm_compute in Hev. discriminate Hev.
Defined.

(** * Further properties of the program *)

(** ** Secrets that cannot be encoded *)

Lemma encode_char_surrogate (c : codepoint) :
  0xD800 <= c <= 0xDFFF -> Utf8.encode_char c = None.
Proof.
  intros Hc. unfold Utf8.encode_char.
  replace (c <? 0) with false by (symmetry; apply Z.ltb_ge; lia).
  replace (c <? 128) with false by (symmetry; apply Z.ltb_ge; lia).
  replace (c <? 2048) with false by (symmetry; apply Z.ltb_ge; lia).
  replace (c <? 65536) with true by (symmetry; apply Z.ltb_lt; lia).
  replace (55296 <=? c) with true by (symmetry; apply Z.leb_le; lia).
  replace (c <=? 57343) with true by (symmetry; apply Z.leb_le; lia).
  reflexivity.
Qed.

Lemma encode_opt_surrogate (s : str) (c : codepoint) :
  In c s -> 0xD800 <= c <= 0xDFFF -> Utf8.encode_opt s = None.
Proof.
  intros Hin Hc. induction s as [| d s IH]; [destruct Hin |].
  cbn [Utf8.encode_opt]. destruct Hin as [-> | Hin].
  - rewrite (encode_char_surrogate c Hc). reflexivity.
  - rewrite (IH Hin). destruct (Utf8.encode_char d); reflexivity.
Qed.

(** A secret that holds a surrogate code point (as an argument made of
    bytes that are not valid UTF-8 does) has no UTF-8 encoding: the
    function raises [UnicodeEncodeError] once it has read the clock, before
    it draws random bytes and before it prints anything, and the script
    ends on that exception with status 1. *)
Theorem surrogate_secret_raises_before_random_draw
  (prog s : str) (rest : list str) (c : codepoint) (w : world)
  (Hin : In c s) (Hc : 0xD800 <= c <= 0xDFFF) :
  exists w',
    generate_admin_secret s w = (Raise UnicodeEncodeError, w')
    /\ script true (prog :: s :: rest) w = (Raise UnicodeEncodeError, w')
    /\ events w' = events w ++ [ReadClock]
    /\ drawn w' = drawn w
    /\ stdin w' = stdin w
    /\ exit_status (fst (script true (prog :: s :: rest) w)) = 1.
Proof.
  pose proof (generate_unencodable s w (encode_opt_surrogate s c Hin Hc)) as Hgen.
  assert (Hrun : script true (prog :: s :: rest) w
                 = (Raise UnicodeEncodeError, advance w 0 [ReadClock])).
  { rewrite script_with_argument. destruct s as [| d s]; [destruct Hin |].
    unfold bind. rewrite Hgen. reflexivity. }
  exists (advance w 0 [ReadClock]).
  split; [exact Hgen |]. split; [exact Hrun |].
  split; [reflexivity |]. split; [apply Nat.add_0_r |]. split; [reflexivity |].
  rewrite Hrun. reflexivity.
Qed.

Lemma surrogate_secret_raises_before_random_draw_witness :
  In 0xDCFF (lit "ab" ++ [0xDCFF]) /\ 0xD800 <= 0xDCFF <= 0xDFFF
  /\ exists w',
       script true [lit "generate_secret.py"; lit "ab" ++ [0xDCFF]] example_world
       = (Raise UnicodeEncodeError, w')
       /\ events w' = events example_world ++ [ReadClock].
Proof.
  assert (Hin : In 0xDCFF (lit "ab" ++ [0xDCFF])) by (right; right; left; reflexivity).
  assert (Hc : 0xD800 <= 0xDCFF <= 0xDFFF) by lia.
  split; [exact Hin |]. split; [exact Hc |].
  destruct (surrogate_secret_raises_before_random_draw (lit "generate_secret.py")
              (lit "ab" ++ [0xDCFF]) [] 0xDCFF example_world Hin Hc)
    as (w' & _ & Hrun & Hev & _).
  exists w'. split; [exact Hrun | exact Hev].
Defined.

(** ** The import guard *)

(** Without the cryptography package the script prints its two lines and
    leaves with status 1, whatever the arguments: it reads no argument,
    no input, no clock and no random byte, and prints no token. *)
Theorem missing_library_stops_the_script (argv : list str) (w : world) :
  script false argv w
  = (Raise (SystemExit 1),
     World (now w) (entropy w) (drawn w) (stdin w)
           (events w ++ [WriteStdout MSG_MISSING_LIBRARY; WriteStdout MSG_PIP_INSTALL]))
  /\ exit_status (fst (script false argv w)) = 1
  /\ prints_token (skipn (length (events w)) (events (snd (script false argv w)))) = false.
Proof.
  assert (H : script false argv w
              = (Raise (SystemExit 1),
                 World (now w) (entropy w) (drawn w) (stdin w)
                       (events w ++ [WriteStdout MSG_MISSING_LIBRARY;
                                     WriteStdout MSG_PIP_INSTALL]))).
  { unfold script, bind, print, emit, exit, raise. cbn [now entropy drawn stdin events].
    rewrite <- app_assoc. reflexivity. }
  rewrite H. split; [reflexivity |]. split; [reflexivity |].
  cbn [snd events]. rewrite (skipn_app_exact _ _ _ eq_refl). reflexivity.
Qed.

(** ** The choice of the secret *)

Lemma script_without_argument (argv : list str) (line : str) (ls : list str) (w : world) :
  (length argv <= 1)%nat -> stdin w = line :: ls ->
  script true argv w
  = match strip line with
    | [] => print MSG_NO_SECRET
    | s => generate_admin_secret s ;;; ret tt
    end (World (now w) (entropy w) (drawn w) ls (events w ++ [ReadStdin PROMPT])).
Proof.
  intros Hargs H.
  assert (Hlt : (1 <? length argv)%nat = false) by (apply Nat.ltb_ge; exact Hargs).
  unfold script, main, bind, ret, input. rewrite Hlt, H.
  destruct (strip line); reflexivity.
Qed.

(** With no argument and nothing to read, [input] raises [EOFError] after
    the prompt: the script ends on it with status 1 and has printed no
    line. *)
Theorem end_of_input_raises (argv : list str) (w : world)
  (Hargs : (length argv <= 1)%nat) (Heof : stdin w = []) :
  script true argv w
  = (Raise EOFError,
     World (now w) (entropy w) (drawn w) (stdin w) (events w ++ [ReadStdin PROMPT]))
  /\ exit_status (fst (script true argv w)) = 1
  /\ stdout (snd (script true argv w)) = stdout w.
Proof.
  assert (Hlt : (1 <? length argv)%nat = false) by (apply Nat.ltb_ge; exact Hargs).
  assert (H : script true argv w
              = (Raise EOFError,
                 World (now w) (entropy w) (drawn w) (stdin w)
                       (events w ++ [ReadStdin PROMPT]))).
  { unfold script, main, bind, ret, input, emit. rewrite Hlt, Heof. reflexivity. }
  rewrite H. split; [reflexivity |]. split; [reflexivity |].
  unfold stdout. cbn [snd events]. rewrite flat_map_app. apply app_nil_r.
Qed.

Lemma end_of_input_raises_witness :
  (length [lit "generate_secret.py"] <= 1)%nat /\ stdin example_world = []
  /\ exit_status (fst (script true [lit "generate_secret.py"] example_world)) = 1.
Proof.
  assert (Hargs : (length [lit "generate_secret.py"] <= 1)%nat) by (simpl; lia).
  split; [exact Hargs |]. split; [reflexivity |].
  destruct (end_of_input_raises [lit "generate_secret.py"] example_world Hargs eq_refl)
    as (_ & Hst & _).
  exact Hst.
Defined.

Lemma generate_keeps_stdin (s : str) (w : world) :
  stdin (snd (generate_admin_secret s w)) = stdin w
  /\ ~ In (ReadStdin PROMPT)
          (skipn (length (events w)) (events (snd (generate_admin_secret s w)))).
Proof.
  destruct (Utf8.encode_opt s) as [bs |] eqn:E.
  - apply encode_ok in E. rewrite (generate_spec s bs w E). cbn [snd advance stdin events].
    split; [reflexivity |]. rewrite (skipn_app_exact _ _ _ eq_refl).
    cbn [app report In]. intros H.
    repeat (destruct H as [H | H]; [discriminate H |]). exact H.
  - rewrite (generate_unencodable s w E). cbn [snd advance stdin events].
    split; [reflexivity |]. rewrite (skipn_app_exact _ _ _ eq_refl).
    intros [H | []]. discriminate H.
Qed.

(** Only the first argument counts.  The name of the script and whatever
    follows the first argument change nothing, and with an argument present
    the script never reads standard input. *)
Theorem only_first_argument_is_read (prog prog' a : str) (rest : list str) (w : world) :
  script true (prog :: a :: rest) w = script true [prog'; a] w
  /\ stdin (snd (script true (prog :: a :: rest) w)) = stdin w
  /\ ~ In (ReadStdin PROMPT)
          (skipn (length (events w)) (events (snd (script true (prog :: a :: rest) w)))).
Proof.
  split; [rewrite !script_with_argument; reflexivity |].
  rewrite script_with_argument. destruct a as [| c a].
  - unfold print, emit. cbn [snd stdin events].
    split; [reflexivity |]. rewrite (skipn_app_exact _ _ _ eq_refl).
    intros [H | []]. discriminate H.
  - unfold bind, ret.
    destruct (generate_keeps_stdin (c :: a) w) as [Hin Hev].
    destruct (generate_admin_secret (c :: a) w) as [[t | e] w']; cbn [snd] in *;
      split; assumption.
Qed.

(** A non-empty argument that can be encoded is handed unchanged to
    [generate_admin_secret]; the script drops the value returned and ends
    with status 0, and what it has printed are the five lines of the
    function, the token in the fourth. *)
Theorem argument_secret_generates_token
  (prog a : str) (rest : list str) (bs : bytes) (w : world)
  (Hne : a <> []) (Henc : Utf8.encode a = Ok bs) :
  exists token w',
    generate_admin_secret a w = (Ok token, w')
    /\ script true (prog :: a :: rest) w = (Ok tt, w')
    /\ exit_status (fst (script true (prog :: a :: rest) w)) = 0
    /\ stdout w'
       = stdout w
         ++ [MSG_HEADER;
             MSG_DATE ++ strftime_Ymd (now w);
             MSG_PLAIN ++ strftime_Ymd (now w) ++ lit "_" ++ a ++ lit "_xy521";
             MSG_RESULT ++ token;
             MSG_FOOTER].
Proof.
  assert (Hrun : script true (prog :: a :: rest) w
                 = (Ok tt, advance w 16 ([ReadClock; ReadRandom 16] ++ report (frame_of a bs w)))).
  { rewrite script_with_argument. destruct a as [| c a]; [contradiction |].
    unfold bind. rewrite (generate_spec _ _ w Henc). reflexivity. }
  exists (result_hex (frame_of a bs w)),
    (advance w 16 ([ReadClock; ReadRandom 16] ++ report (frame_of a bs w))).
  split; [apply generate_spec, Henc |]. split; [exact Hrun |].
  split; [rewrite Hrun; reflexivity |].
  unfold stdout. cbn [advance events]. rewrite flat_map_app. reflexivity.
Qed.

Lemma argument_secret_generates_token_witness :
  lit "test" <> [] /\ Utf8.encode (lit "test") = Ok (ascii_bytes (lit "test"))
  /\ exists token w',
       generate_admin_secret (lit "test") example_world = (Ok token, w')
       /\ script true [lit "generate_secret.py"; lit "test"] example_world = (Ok tt, w').
Proof.
  assert (Hne : lit "test" <> []) by discriminate.
  split; [exact Hne |]. split; [reflexivity |].
  destruct (argument_secret_generates_token (lit "generate_secret.py") (lit "test") []
              (ascii_bytes (lit "test")) example_world Hne eq_refl)
    as (token & w' & Hgen & Hrun & _).
  exists token, w'. split; [exact Hgen | exact Hrun].
Defined.

(** ** The secret typed at the prompt *)

Lemma lstrip_split (s : str) :
  exists pre, s = pre ++ lstrip s /\ forallb isspace pre = true.
Proof.
  induction s as [| c s (pre & Hs & Hpre)]; [exists []; split; reflexivity |].
  cbn [lstrip]. destruct (isspace c) eqn:Hc.
  - exists (c :: pre). split; [cbn [app]; f_equal; exact Hs |].
    cbn [forallb]. rewrite Hc, Hpre. reflexivity.
  - exists []. split; reflexivity.
Qed.

Lemma lstrip_head (s : str) (c : codepoint) (rest : str) :
  lstrip s = c :: rest -> isspace c = false.
Proof.
  induction s as [| d s IH]; [discriminate |].
  cbn [lstrip]. destruct (isspace d) eqn:Hd; [exact IH |].
  intros H. injection H as <- _. exact Hd.
Qed.

Lemma rstrip_split (s : str) :
  exists post, s = rstrip s ++ post /\ forallb isspace post = true.
Proof.
  destruct (lstrip_split (rev s)) as (pre & Hs & Hpre).
  exists (rev pre). split.
  - unfold rstrip. rewrite <- rev_app_distr, <- Hs. symmetry. apply rev_involutive.
  - rewrite forallb_forall in *. intros x Hx. apply Hpre, in_rev, Hx.
Qed.

Lemma rstrip_last (s rest : str) (c : codepoint) :
  rstrip s = rest ++ [c] -> isspace c = false.
Proof.
  unfold rstrip. intros H. apply (f_equal (@rev codepoint)) in H.
  rewrite rev_involutive, rev_app_distr in H. apply (lstrip_head _ _ _ H).
Qed.

Lemma forallb_lstrip (s : str) :
  forallb isspace (lstrip s) = true -> forallb isspace s = true.
Proof.
  induction s as [| c s IH]; [reflexivity |].
  cbn [lstrip]. destruct (isspace c) eqn:Hc.
  - intros H. cbn [forallb]. rewrite Hc. apply IH, H.
  - cbn [forallb]. rewrite Hc. discriminate.
Qed.

Lemma lstrip_nil (s : str) : lstrip s = [] -> forallb isspace s = true.
Proof. intros H. apply forallb_lstrip. rewrite H. reflexivity. Qed.

Lemma strip_nil (s : str) : strip s = [] <-> forallb isspace s = true.
Proof.
  split; [| apply strip_whitespace].
  unfold strip, rstrip. intros H.
  apply (f_equal (@rev codepoint)) in H. rewrite rev_involutive in H. cbn [rev] in H.
  apply lstrip_nil in H. apply forallb_lstrip.
  rewrite forallb_forall in *. intros x Hx. apply H. rewrite <- in_rev. exact Hx.
Qed.

(** [strip] takes whitespace from the two ends of the line and nothing
    else: the line is whitespace, the stripped line, whitespace; the
    stripped line neither begins nor ends with whitespace, and whitespace
    inside it stays. *)
Theorem strip_removes_surrounding_whitespace_only (line : str) :
  (exists pre post,
     line = pre ++ strip line ++ post
     /\ forallb isspace pre = true /\ forallb isspace post = true)
  /\ (forall c rest, strip line = c :: rest -> isspace c = false)
  /\ (forall c rest, strip line = rest ++ [c] -> isspace c = false)
  /\ (strip line = [] <-> forallb isspace line = true).
Proof.
  destruct (lstrip_split line) as (pre & Hl & Hpre).
  destruct (rstrip_split (lstrip line)) as (post & Hr & Hpost).
  split; [exists pre, post; split; [| split; assumption] |].
  { unfold strip. rewrite <- Hr. exact Hl. }
  split.
  { intros c rest H. unfold strip in H. rewrite H in Hr.
    apply (lstrip_head line c (rest ++ post)). exact Hr. }
  split; [| apply strip_nil].
  intros c rest H. apply (rstrip_last (lstrip line) rest c). exact H.
Qed.

Lemma frame_of_after_input (s : str) (bs : bytes) (w : world) (ls : list str) (es : list event) :
  frame_of s bs (World (now w) (entropy w) (drawn w) ls es) = frame_of s bs w.
Proof. reflexivity. Qed.

(** Without an argument the script reads one line and takes the stripped
    line as the secret: when that is not empty and can be encoded, the
    token is the one of [generate_admin_secret] on the stripped line, read
    after the prompt; the rest of the input is left unread. *)
Theorem typed_secret_is_stripped
  (argv : list str) (line : str) (ls : list str) (bs : bytes) (w : world)
  (Hargs : (length argv <= 1)%nat) (Hin : stdin w = line :: ls)
  (Hne : strip line <> []) (Henc : Utf8.encode (strip line) = Ok bs) :
  exists w',
    script true argv w = (Ok tt, w')
    /\ events w'
       = events w ++ [ReadStdin PROMPT; ReadClock; ReadRandom 16]
         ++ report (frame_of (strip line) bs w)
    /\ key (frame_of (strip line) bs w) = SHA256.digest bs
    /\ plain_text (frame_of (strip line) bs w)
       = strftime_Ymd (now w) ++ lit "_" ++ strip line ++ lit "_xy521"
    /\ stdin w' = ls
    /\ drawn w' = (drawn w + 16)%nat.
Proof.
  rewrite (script_without_argument argv line ls w Hargs Hin).
  destruct (strip line) as [| c s] eqn:Hs; [contradiction |].
  unfold bind, ret. rewrite (generate_spec _ _ _ Henc), frame_of_after_input.
  eexists. split; [reflexivity |].
  cbn [advance events stdin drawn now entropy]. rewrite <- app_assoc.
  repeat split.
Qed.

Lemma typed_secret_is_stripped_witness :
  exists w',
    script true [lit "generate_secret.py"]
      (World (Datetime 2024 1 15) (entropy example_world) 0 [lit "  my secret  "] [])
    = (Ok tt, w')
    /\ printed (MSG_PLAIN ++ lit "2024-01-15_my secret_xy521") (events w') = true.
Proof.
  assert (Hargs : (length [lit "generate_secret.py"] <= 1)%nat) by (simpl; lia).
  assert (Hne : strip (lit "  my secret  ") <> []) by (vm_compute; discriminate).
  destruct (typed_secret_is_stripped [lit "generate_secret.py"] (lit "  my secret  ") []
              (ascii_bytes (lit "my secret"))
              (World (Datetime 2024 1 15) (entropy example_world) 0 [lit "  my secret  "] [])
              Hargs eq_refl Hne eq_refl)
    as (w' & Hrun & Hev & _).
  exists w'. split; [exact Hrun |]. rewrite Hev. vm_compute. reflexivity.
Defined.

Lemma printed_app (line : str) (a b : list event) :
  printed line (a ++ b) = printed line a || printed line b.
Proof. apply existsb_app. Qed.

(** Without an argument, the error line is printed exactly when the line
    typed is blank (empty, or whitespace only). *)
Theorem typed_line_is_rejected_iff_blank
  (argv : list str) (line : str) (ls : list str) (w : world)
  (Hargs : (length argv <= 1)%nat) (Hin : stdin w = line :: ls) :
  printed MSG_NO_SECRET (skipn (length (events w)) (events (snd (script true argv w))))
  = forallb isspace line
  /\ prints_token (skipn (length (events w)) (events (snd (script true argv w))))
     = match Utf8.encode_opt (strip line) with
       | Some _ => negb (forallb isspace line)
       | None => false
       end.
Proof.
  rewrite (script_without_argument argv line ls w Hargs Hin).
  destruct (forallb isspace line) eqn:Hws.
  - rewrite (strip_whitespace line Hws). unfold print, emit. cbn [snd events].
    rewrite <- app_assoc, (skipn_app_exact _ _ _ eq_refl).
    split; vm_compute; reflexivity.
  - destruct (strip line) as [| c s] eqn:Hs.
    { apply strip_nil in Hs. rewrite Hs in Hws. discriminate Hws. }
    unfold bind, ret. destruct (Utf8.encode_opt (c :: s)) as [bs |] eqn:E.
    + apply encode_ok in E. rewrite (generate_spec _ _ _ E). cbn [snd advance events].
      rewrite <- app_assoc, (skipn_app_exact _ _ _ eq_refl).
      split; reflexivity.
    + rewrite (generate_unencodable _ _ E). cbn [snd advance events].
      rewrite <- app_assoc, (skipn_app_exact _ _ _ eq_refl).
      split; reflexivity.
Qed.

Lemma typed_line_is_rejected_iff_blank_witness :
  printed MSG_NO_SECRET
    (events (snd (script true [lit "generate_secret.py"]
                    (World (Datetime 2024 1 15) (entropy example_world) 0 [lit "   "] []))))
  = true.
Proof.
  assert (Hargs : (length [lit "generate_secret.py"] <= 1)%nat) by (simpl; lia).
  destruct (typed_line_is_rejected_iff_blank [lit "generate_secret.py"] (lit "   ") []
              (World (Datetime 2024 1 15) (entropy example_world) 0 [lit "   "] [])
              Hargs eq_refl) as [H _].
  exact H.
Defined.

(** ** What the token tells *)

Lemma plain_bytes_length (d : datetime) (bs : bytes) :
  length (plain_bytes_of d bs) = (17 + length bs)%nat.
Proof.
  unfold plain_bytes_of, ascii_bytes.
  rewrite !length_app, !length_map, strftime_length. cbn [lit length map list_ascii_of_string].
  lia.
Qed.

(** The length of the token is a function of the length of the encoded
    secret alone: 32 characters for the IV and 32 for each block of the
    17 + n padded bytes.  It grows with the secret, by steps of 32. *)
Theorem token_length_of_secret_length (s : str) (bs : bytes) (w : world)
  (Henc : Utf8.encode s = Ok bs) :
  exists token w',
    generate_admin_secret s w = (Ok token, w')
    /\ length token = (32 * (2 + (17 + length bs) / 16))%nat.
Proof.
  exists (result_hex (frame_of s bs w)),
    (advance w 16 ([ReadClock; ReadRandom 16] ++ report (frame_of s bs w))).
  split; [apply generate_spec, Henc |].
  cbn [frame_of result_hex].
  rewrite hex_length, length_app, next_iv_length, encrypt_blocks_length.
  rewrite pkcs7_pad_length, plain_bytes_length.
  rewrite (Nat.mul_comm 16 ((17 + length bs) / 16 + 1)), Nat.div_mul by discriminate.
  lia.
Qed.

Lemma token_length_of_secret_length_witness :
  Utf8.encode (lit "test") = Ok (ascii_bytes (lit "test"))
  /\ exists token w',
       generate_admin_secret (lit "test") example_world = (Ok token, w')
       /\ length token = 96%nat.
Proof.
  split; [reflexivity |].
  destruct (token_length_of_secret_length (lit "test") (ascii_bytes (lit "test"))
              example_world eq_refl) as (token & w' & Hrun & Hlen).
  exists token, w'. split; [exact Hrun | exact Hlen].
Defined.

Lemma some_inj {A : Type} (a b : A) : Some a = Some b -> a = b.
Proof. intros H. injection H as H. exact H. Qed.

Lemma ascii_bytes_inj (a b : str) :
  forallb is_ascii a = true -> forallb is_ascii b = true ->
  ascii_bytes a = ascii_bytes b -> a = b.
Proof.
  revert b. induction a as [| x a IH]; intros [| y b] Ha Hb H; try discriminate H;
    [reflexivity |].
  cbn [forallb] in Ha, Hb.
  apply andb_true_iff in Ha as [Hx Ha]. apply andb_true_iff in Hb as [Hy Hb].
  injection H as Hxy H. f_equal; [| apply IH; assumption].
  unfold is_ascii in Hx, Hy.
  apply andb_true_iff in Hx as [Hx0 Hx1]. apply andb_true_iff in Hy as [Hy0 Hy1].
  apply Z.leb_le in Hx0, Hy0. apply Z.ltb_lt in Hx1, Hy1.
  apply (f_equal byte.unsigned) in Hxy. rewrite !byte.unsigned_of_Z in Hxy.
  unfold byte.wrap in Hxy. rewrite !Z.mod_small in Hxy by lia. exact Hxy.
Qed.

(** For one secret, tokens made on different dates differ, and not only in
    the IV: with the same sixteen random bytes they differ in the
    ciphertext. *)
Theorem different_dates_give_different_tokens (s : str) (bs : bytes) (w1 w2 : world)
  (Henc : Utf8.encode s = Ok bs)
  (Hdate : strftime_Ymd (now w1) <> strftime_Ymd (now w2)) :
  exists t1 w1' t2 w2',
    generate_admin_secret s w1 = (Ok t1, w1')
    /\ generate_admin_secret s w2 = (Ok t2, w2')
    /\ t1 <> t2
    /\ (next_iv w1 = next_iv w2 -> skipn 32 t1 <> skipn 32 t2).
Proof.
  exists (result_hex (frame_of s bs w1)),
    (advance w1 16 ([ReadClock; ReadRandom 16] ++ report (frame_of s bs w1))),
    (result_hex (frame_of s bs w2)),
    (advance w2 16 ([ReadClock; ReadRandom 16] ++ report (frame_of s bs w2))).
  split; [apply generate_spec, Henc |].
  split; [apply generate_spec, Henc |].
  cbn [frame_of result_hex].
  set (p1 := PKCS7.pad 128 (plain_bytes_of (now w1) bs)).
  set (p2 := PKCS7.pad 128 (plain_bytes_of (now w2) bs)).
  set (k := SHA256.digest bs).
  set (c1 := snd (CBC.encrypt_blocks (length p1 / 16) (AES.key_expansion k) (next_iv w1) p1)).
  set (c2 := snd (CBC.encrypt_blocks (length p2 / 16) (AES.key_expansion k) (next_iv w2) p2)).
  assert (Hd1 : CBC.decrypt k (next_iv w1) c1 = p1).
  { apply (cbc_decrypt_encrypt k (next_iv w1) p1 c1 (length p1 / 16)
             (sha256_digest_length bs) (next_iv_length w1) (padded_length (now w1) bs)).
    apply cbc_encrypt_ok;
      [apply sha256_digest_length | apply next_iv_length | apply padded_length]. }
  assert (Hd2 : CBC.decrypt k (next_iv w2) c2 = p2).
  { apply (cbc_decrypt_encrypt k (next_iv w2) p2 c2 (length p2 / 16)
             (sha256_digest_length bs) (next_iv_length w2) (padded_length (now w2) bs)).
    apply cbc_encrypt_ok;
      [apply sha256_digest_length | apply next_iv_length | apply padded_length]. }
  assert (Hsame : next_iv w1 = next_iv w2 -> c1 = c2 -> False).
  { intros Hiv Hc. apply Hdate.
    assert (Hp : p1 = p2) by (rewrite <- Hd1, <- Hd2, Hiv, Hc; reflexivity).
    apply (f_equal (PKCS7.unpad 128)) in Hp. unfold p1, p2 in Hp.
    rewrite !pkcs7_unpad_pad in Hp. apply some_inj in Hp.
    unfold plain_bytes_of in Hp. apply app_inv_tail in Hp.
    apply ascii_bytes_inj; [apply strftime_ascii | apply strftime_ascii | exact Hp]. }
  split.
  - intros H. apply hex_inj in H.
    assert (Hiv : next_iv w1 = next_iv w2).
    { apply (f_equal (firstn 16)) in H.
      rewrite (firstn_app_exact _ _ 16 (next_iv_length w1)) in H.
      rewrite (firstn_app_exact _ _ 16 (next_iv_length w2)) in H. exact H. }
    apply (Hsame Hiv).
    apply (f_equal (skipn 16)) in H.
    rewrite (skipn_app_exact _ _ 16 (next_iv_length w1)) in H.
    rewrite (skipn_app_exact _ _ 16 (next_iv_length w2)) in H. exact H.
  - intros Hiv H. apply (Hsame Hiv). rewrite !hex_app in H.
    rewrite (skipn_app_exact _ _ 32) in H by (rewrite hex_length, next_iv_length; reflexivity).
    rewrite (skipn_app_exact _ _ 32) in H by (rewrite hex_length, next_iv_length; reflexivity).
    apply hex_inj, H.
Qed.

Lemma different_dates_give_different_tokens_witness :
  exists t1 w1' t2 w2',
    generate_admin_secret (lit "test") example_world = (Ok t1, w1')
    /\ generate_admin_secret (lit "test")
         (World (Datetime 2024 1 16) (entropy example_world) 0 [] []) = (Ok t2, w2')
    /\ t1 <> t2.
Proof.
  assert (Hdate : strftime_Ymd (now example_world)
                  <> strftime_Ymd (now (World (Datetime 2024 1 16) (entropy example_world)
                                              0 [] [])))
    by (vm_compute; discriminate).
  destruct (different_dates_give_different_tokens (lit "test") (ascii_bytes (lit "test"))
              example_world (World (Datetime 2024 1 16) (entropy example_world) 0 [] [])
              eq_refl Hdate)
    as (t1 & w1' & t2 & w2' & H1 & H2 & Hne & _).
  exists t1, w1', t2, w2'. split; [exact H1 | split; [exact H2 | exact Hne]].
Defined.

Lemma app_inv_length {A : Type} (a a' b b' : list A) :
  length a = length a' -> a ++ b = a' ++ b' -> a = a' /\ b = b'.
Proof.
  revert a'. induction a as [| x a IH]; intros [| y a'] Hl H; try discriminate Hl.
  - split; [reflexivity | exact H].
  - injection Hl as Hl. injection H as -> H. destruct (IH a' Hl H) as [-> ->].
    split; reflexivity.
Qed.

(** The plaintext is built without escaping, and needs none: the date has
    ten characters and the suffix six, so equal plaintexts have equal dates
    and equal secrets, whatever characters the secrets hold. *)
Theorem plaintext_determines_date_and_secret
  (s1 s2 : str) (bs1 bs2 : bytes) (w1 w2 : world)
  (Henc1 : Utf8.encode s1 = Ok bs1) (Henc2 : Utf8.encode s2 = Ok bs2) :
  exists f1 w1' f2 w2',
    generate_admin_secret_body s1 w1 = (Ok f1, w1')
    /\ generate_admin_secret_body s2 w2 = (Ok f2, w2')
    /\ (plain_text f1 = plain_text f2 -> date_str f1 = date_str f2 /\ s1 = s2).
Proof.
  exists (frame_of s1 bs1 w1), (advance w1 16 [ReadClock; ReadRandom 16]),
    (frame_of s2 bs2 w2), (advance w2 16 [ReadClock; ReadRandom 16]).
  split; [apply body_spec, Henc1 |]. split; [apply body_spec, Henc2 |].
  cbn [frame_of plain_text date_str]. intros H.
  apply app_inv_length in H as [Hd H]; [| rewrite !strftime_length; reflexivity].
  split; [exact Hd |].
  apply app_inv_length in H as [_ H]; [| reflexivity].
  apply app_inv_tail in H. exact H.
Qed.

Lemma plaintext_determines_date_and_secret_witness :
  exists f1 w1' f2 w2',
    generate_admin_secret_body (lit "a_xy521") example_world = (Ok f1, w1')
    /\ generate_admin_secret_body (lit "a") example_world = (Ok f2, w2')
    /\ (plain_text f1 = plain_text f2 -> lit "a_xy521" = lit "a").
Proof.
  destruct (plaintext_determines_date_and_secret (lit "a_xy521") (lit "a")
              (ascii_bytes (lit "a_xy521")) (ascii_bytes (lit "a"))
              example_world example_world eq_refl eq_refl)
    as (f1 & w1' & f2 & w2' & H1 & H2 & H).
  exists f1, w1', f2, w2'. split; [exact H1 | split; [exact H2 |]].
  intros Hp. apply H, Hp.
Defined.

(** ** The effects of the function *)

(** On an encodable secret the function reads the clock, then draws
    sixteen random bytes, and only then, the token computed, writes its five
    lines: the header, the date, the plaintext, the token and the footer.
    It reads nothing from standard input, and it leaves the random source
    sixteen bytes further. *)
Theorem effects_of_generate (s : str) (bs : bytes) (w : world)
  (Henc : Utf8.encode s = Ok bs) :
  exists token w',
    generate_admin_secret s w = (Ok token, w')
    /\ events w'
       = events w
         ++ [ReadClock; ReadRandom 16;
             WriteStdout MSG_HEADER;
             WriteStdout (MSG_DATE ++ strftime_Ymd (now w));
             WriteStdout (MSG_PLAIN ++ strftime_Ymd (now w) ++ lit "_" ++ s ++ lit "_xy521");
             WriteStdout (MSG_RESULT ++ token);
             WriteStdout MSG_FOOTER]
    /\ stdin w' = stdin w
    /\ now w' = now w
    /\ drawn w' = (drawn w + 16)%nat.
Proof.
  exists (result_hex (frame_of s bs w)),
    (advance w 16 ([ReadClock; ReadRandom 16] ++ report (frame_of s bs w))).
  split; [apply generate_spec, Henc |]. repeat split.
Qed.

Lemma effects_of_generate_witness :
  Utf8.encode (lit "test") = Ok (ascii_bytes (lit "test"))
  /\ exists token w',
       generate_admin_secret (lit "test") example_world = (Ok token, w')
       /\ stdin w' = stdin example_world
       /\ drawn w' = (drawn example_world + 16)%nat.
Proof.
  split; [reflexivity |].
  destruct (effects_of_generate (lit "test") (ascii_bytes (lit "test")) example_world eq_refl)
    as (token & w' & Hrun & _ & Hin & _ & Hd).
  exists token, w'. split; [exact Hrun | split; [exact Hin | exact Hd]].
Defined.
